(** * CPU_Alert_Tracker: process monitor with CPU alerting

    A shallow embedding of the monitoring logic of [pid_monitor.py] (the top-N
    table, the rolling CPU graph, process termination) and of [ids_monitor.py]
    (the single-process detail report), and the properties the specification
    states about them.

    Modelling conventions.
    - A Python [float] that is a CPU percentage, a memory size or a time is a
      rational [Q]: the code only compares such values ([<], [>], [==]) and
      these comparisons are exact on floats (psutil returns no NaN).
    - A Python [str] is a [string] of UTF-8 bytes; bytewise lexicographic order
      on UTF-8 is the code-point order Python compares strings by.
    - [psutil] and the operating system are the environment: what a call
      returns or raises is read from a [World] record, and the part of psutil
      that is stateful (the CPU baseline a [Process] object remembers between
      two [cpu_percent(interval=None)] calls, the clock) is explicit state.
    - Exceptions are values: every fallible call returns a [result], and
      [try]/[except] is the combinator [try_except]. *)

From Stdlib Require Import ZArith QArith List String Ascii Bool Lia.
From Stdlib Require Import Sorted Permutation DecimalString DecimalPos DecimalZ.
From stdpp Require Import gmap strings.

Local Open Scope string_scope.
Local Open Scope Z_scope.

(** ** Exceptions and results *)

(** The exceptions the psutil calls of the two programs raise; all four are
    subclasses of Python's [Exception]. [psutil.ZombieProcess] is a subclass
    of [psutil.NoSuchProcess] and is represented by it. Each carries the text
    [str(e)] renders. *)
Inductive exn : Type :=
| NoSuchProcess (msg : string)
| AccessDenied (msg : string)
| TimeoutExpired (msg : string)
| OtherException (msg : string).

(** [str(e)] *)
Definition str_exn (e : exn) : string :=
  match e with
  | NoSuchProcess m | AccessDenied m | TimeoutExpired m | OtherException m => m
  end.

Inductive result (A : Type) : Type :=
| Ok (a : A)
| Raise (e : exn).
Arguments Ok {A} a.
Arguments Raise {A} e.

(** ** Python list slicing *)

(** [l[:n]]: a negative [n] counts from the end. *)
Definition slice_to {A} (n : Z) (l : list A) : list A :=
  if n <? 0 then firstn (Z.to_nat (Z.of_nat (length l) + n)) l
  else firstn (Z.to_nat n) l.

(** [l[i:]]: a negative [i] counts from the end. *)
Definition slice_from {A} (i : Z) (l : list A) : list A :=
  if i <? 0 then skipn (Z.to_nat (Z.of_nat (length l) + i)) l
  else skipn (Z.to_nat i) l.

(** [l.append(x)] *)
Definition append {A} (l : list A) (x : A) : list A := (l ++ [x])%list.

(** [str(n)] for an [int]. *)
Definition str_int (n : Z) : string := NilEmpty.string_of_int (Z.to_int n).

(** ** Comparison of [(cpu, pid, name)] tuples *)

Definition sample : Type := Q * Z * string.

Definition cpu_of (t : sample) : Q := fst (fst t).
Definition pid_of (t : sample) : Z := snd (fst t).
Definition name_of (t : sample) : string := snd t.

(** Python compares tuples lexicographically: the first position where the
    items are not [==] decides. *)
Definition tuple_compare (a b : sample) : comparison :=
  match Qcompare (cpu_of a) (cpu_of b) with
  | Eq => match Z.compare (pid_of a) (pid_of b) with
          | Eq => String.compare (name_of a) (name_of b)
          | c => c
          end
  | c => c
  end.

(** What makes a three-way comparison a total preorder with [Eq] as its
    equivalence. *)
Definition compare_laws {A} (cmp : A -> A -> comparison) : Prop :=
  (forall a b, cmp b a = CompOpp (cmp a b)) /\
  (forall a b c, cmp a b = Lt -> cmp b c = Lt -> cmp a c = Lt) /\
  (forall a b c, cmp a b = Eq -> cmp a c = cmp b c).

(** [a < b] on tuples. *)
Definition tuple_lt (a b : sample) : bool :=
  match tuple_compare a b with Lt => true | _ => false end.

(** [list.sort(reverse=True)]: the sort is stable, and with [reverse=True]
    elements that compare equal keep their original order too. The result is
    the descending stable arrangement, built here by insertion from the right:
    a new head [x] goes behind every element strictly greater than it and in
    front of everything else. *)
Fixpoint insert_reverse (x : sample) (l : list sample) : list sample :=
  match l with
  | [] => [x]
  | y :: l' => if tuple_lt x y then y :: insert_reverse x l' else x :: l
  end.

Fixpoint sort_reverse (l : list sample) : list sample :=
  match l with
  | [] => []
  | x :: l' => insert_reverse x (sort_reverse l')
  end.

(** [f"{x:.2f}"]: the decimal with two fractional digits nearest to [x], a tie
    going to the even last digit, as Python rounds the exact value of a
    float. *)
Definition two_digits (n : Z) : string :=
  if n <? 10 then "0" ++ str_int n else str_int n.

Definition format_2f (x : Q) : string :=
  let d := Z.pos (Qden x) in
  let a := Z.abs (Qnum x) * 100 in
  let q := a / d in
  let r := a mod d in
  let h := if 2 * r <? d then q
           else if 2 * r =? d then (if Z.even q then q else q + 1)
           else q + 1 in
  (if Qnum x <? 0 then "-" else "") ++
  str_int (h / 100) ++ "." ++ two_digits (h mod 100).

(** [a > b] on numbers. *)
Definition Qgtb (a b : Q) : bool :=
  match Qcompare a b with Gt => true | _ => false end.

(** ** A state and exception monad for the effectful code *)

Definition M (S A : Type) : Type := S -> result A * S.

Definition ret {S A} (a : A) : M S A := fun s => (Ok a, s).

Definition bind {S A B} (c : M S A) (k : A -> M S B) : M S B :=
  fun s => match c s with
           | (Ok a, s') => k a s'
           | (Raise e, s') => (Raise e, s')
           end.

(** A call whose outcome the environment fixes. *)
Definition call {S A} (r : result A) : M S A := fun s => (r, s).

Definition modify {S} (f : S -> S) : M S unit := fun s => (Ok tt, f s).

Definition gets {S A} (f : S -> A) : M S A := fun s => (Ok (f s), s).

(** [try: body  except <classes matching catches>: handler]. The state the
    body reached when it raised is the state the handler starts from. *)
Definition try_except {S A} (catches : exn -> bool)
    (body : M S A) (handler : exn -> M S A) : M S A :=
  fun s => match body s with
           | (Ok a, s') => (Ok a, s')
           | (Raise e, s') => if catches e then handler e s' else (Raise e, s')
           end.

Declare Scope monad_scope.
Delimit Scope monad_scope with monad.
Notation "x <- c ;; k" := (bind c (fun x => k))
  (at level 100, c at next level, right associativity) : monad_scope.
Notation "c ;;; k" := (bind c (fun _ => k))
  (at level 100, right associativity) : monad_scope.
Local Open Scope monad_scope.

(** [for x in l: acc = body(acc, x)], with the loop's local variables as the
    accumulator. *)
Fixpoint for_each {S A B} (body : B -> A -> M S B) (l : list A) (acc : B)
  : M S B :=
  match l with
  | [] => ret acc
  | x :: l' => acc' <- body acc x ;; for_each body l' acc'
  end.

(** A bare [except:] and [except Exception:] catch every exception of [exn]. *)
Definition any_exception (e : exn) : bool := true.

(** [except (psutil.NoSuchProcess, psutil.AccessDenied):] *)
Definition gone_or_denied (e : exn) : bool :=
  match e with
  | NoSuchProcess _ | AccessDenied _ => true
  | _ => false
  end.

(** * pid_monitor.py *)

Module PidMonitor.

(** ** Module constants *)

(** The module-level names the functions read when they run. *)
Record Config : Type := {
  CPU_ALERT_THRESHOLD : Z;
  TOP_N : Z;
  IGNORED_PIDS : gset Z;
  IGNORED_NAMES : gset string
}.

Definition defaults : Config := {|
  CPU_ALERT_THRESHOLD := 80;
  TOP_N := 3;
  IGNORED_PIDS := {[ 0; 4 ]};
  IGNORED_NAMES := {[ "System Idle Process"; "System" ]}
|}.

(** [def get_top_processes(n=3)] *)
Definition default_n : Z := 3.

(** [time.sleep(0.8)] *)
Definition SETTLE : Q := 8 # 10.

(** [proc.wait(timeout=3)] *)
Definition WAIT_TIMEOUT : Q := 3 # 1.

(** ** The environment *)

(** A process as one enumeration of [psutil.process_iter] shows it: its pid,
    what [p.name()] returns or raises, and whether reading its CPU times
    raises. psutil keeps the name on the [Process] object once it is read, so
    the two [p.name()] calls of one loop iteration have one outcome. *)
Record Process : Type := {
  pid : Z;
  name : result string;
  cpu_fault : option exn
}.

(** A process as [psutil.Process(pid)] opens it: its name, its resident set
    size in bytes, whether [terminate()] raises, and how many seconds after
    the termination request it exits ([None]: it never does). *)
Record Handle : Type := {
  h_name : result string;
  h_rss : result Z;
  h_terminate : option exn;
  h_exit_delay : option Q
}.

Record World : Type := {
  (** the processes the k-th enumeration yields *)
  process_iter : nat -> list Process;
  (** the CPU percentage of a pid between two instants *)
  usage : Z -> Q -> Q -> Q;
  psutil_Process : Z -> result Handle;
  (** whether the user answers Yes when asked to confirm terminating a pid *)
  answers_yes : Z -> bool
}.

(** ** The state *)

Inductive icon : Type := DefaultIcon | AlertIcon.

Record Row : Type := {
  item_pid : string;
  item_name : string;
  item_cpu : string;
  item_mem : string;
  item_alert : string;
  alert_red : bool;
  terminate_button : Z
}.

Inductive dialog : Type :=
| Question (title text : string)
| Information (title text : string)
| Critical (title text : string).

(** psutil's and the operating system's part: the clock, the instant of the
    last successful [cpu_percent] call of each cached [Process] object, how
    many enumerations were made, and the pids a termination request was sent
    to. The window's part: the table, the tray icon and the message boxes
    shown so far. *)
Record State : Type := {
  clock : Q;
  last_cpu : gmap Z Q;
  scans : nat;
  table : list Row;
  tray_icon : icon;
  tray_tooltip : string;
  dialogs : list dialog;
  requests : list Z
}.

Definition initial : State := {|
  clock := 0; last_cpu := ∅; scans := 0%nat;
  table := []; tray_icon := DefaultIcon;
  tray_tooltip := "Process Monitoring IDS"; dialogs := [];
  requests := []
|}.

Definition advance (d : Q) (s : State) : State :=
  {| clock := (clock s + d)%Q; last_cpu := last_cpu s; scans := scans s;
     table := table s; tray_icon := tray_icon s;
     tray_tooltip := tray_tooltip s; dialogs := dialogs s;
     requests := requests s |}.

Definition set_baseline (p : Z) (s : State) : State :=
  {| clock := clock s; last_cpu := <[ p := clock s ]> (last_cpu s);
     scans := scans s; table := table s; tray_icon := tray_icon s;
     tray_tooltip := tray_tooltip s; dialogs := dialogs s;
     requests := requests s |}.

(** What an enumeration does to psutil's cache of [Process] objects: the
    object of a pid the enumeration does not yield is dropped, and its CPU
    baseline with it. *)
Definition still_listed (ps : list Process) (m : gmap Z Q) : gmap Z Q :=
  filter (fun kv => kv.1 ∈ map pid ps) m.

Definition next_scan (ps : list Process) (s : State) : State :=
  {| clock := clock s; last_cpu := still_listed ps (last_cpu s);
     scans := S (scans s);
     table := table s; tray_icon := tray_icon s;
     tray_tooltip := tray_tooltip s; dialogs := dialogs s;
     requests := requests s |}.

Definition set_table (t : list Row) (s : State) : State :=
  {| clock := clock s; last_cpu := last_cpu s; scans := scans s;
     table := t; tray_icon := tray_icon s;
     tray_tooltip := tray_tooltip s; dialogs := dialogs s;
     requests := requests s |}.

Definition set_tray (i : icon) (tip : string) (s : State) : State :=
  {| clock := clock s; last_cpu := last_cpu s; scans := scans s;
     table := table s; tray_icon := i; tray_tooltip := tip;
     dialogs := dialogs s; requests := requests s |}.

Definition show_dialog (d : dialog) (s : State) : State :=
  {| clock := clock s; last_cpu := last_cpu s; scans := scans s;
     table := table s; tray_icon := tray_icon s;
     tray_tooltip := tray_tooltip s; dialogs := append (dialogs s) d;
     requests := requests s |}.

Definition send_request (p : Z) (s : State) : State :=
  {| clock := clock s; last_cpu := last_cpu s; scans := scans s;
     table := table s; tray_icon := tray_icon s;
     tray_tooltip := tray_tooltip s; dialogs := dialogs s;
     requests := append (requests s) p |}.

(** ** psutil and the toolkit *)

(** [psutil.process_iter(['pid', 'name'])] *)
Definition iter_processes (w : World) : M State (list Process) :=
  fun s => (Ok (process_iter w (scans s)),
            next_scan (process_iter w (scans s)) s).

(** [p.cpu_percent(interval=None)]: the percentage since the last call on
    this process, which becomes the new baseline; 0.0 on the first call, when
    there is no baseline to compare with. Nothing is recorded when reading
    the CPU times raises. *)
Definition measure (w : World) (s : State) (p : Z) : Q :=
  match last_cpu s !! p with
  | Some t0 => usage w p t0 (clock s)
  | None => 0%Q
  end.

Definition cpu_percent (w : World) (p : Process) : M State Q :=
  fun s => match cpu_fault p with
           | Some e => (Raise e, s)
           | None => (Ok (measure w s (pid p)), set_baseline (pid p) s)
           end.

(** [time.sleep(d)] *)
Definition sleep (d : Q) : M State unit := modify (advance d).

(** [proc.terminate()] on the process of pid [p]: the request reaches the
    operating system unless the call raises. *)
Definition terminate (p : Z) (h : Handle) : M State unit :=
  match h_terminate h with
  | Some e => call (Raise e)
  | None => modify (send_request p)
  end.

(** [proc.wait(timeout=t)] on the process of pid [p]: returns when the
    process has exited, raises [TimeoutExpired] when it is still alive after
    [t] seconds. A process exits only when it was asked to, [h_exit_delay]
    seconds after the request. *)
Definition wait (p : Z) (h : Handle) (t : Q) : M State unit :=
  asked <- gets (fun s => bool_decide (p ∈ requests s)) ;;
  match (if asked : bool then h_exit_delay h else None) with
  | Some d =>
    if Qle_bool d t then sleep d
    else (sleep t ;;; call (Raise (TimeoutExpired "timeout after 3 seconds")))
  | None => sleep t ;;; call (Raise (TimeoutExpired "timeout after 3 seconds"))
  end.

(** [QMessageBox.question(...) == QMessageBox.Yes] *)
Definition question (w : World) (p : Z) (title text : string) : M State bool :=
  modify (show_dialog (Question title text)) ;;; ret (answers_yes w p).

Definition information (title text : string) : M State unit :=
  modify (show_dialog (Information title text)).

Definition critical (title text : string) : M State unit :=
  modify (show_dialog (Critical title text)).

(** ** get_top_processes *)

(** The body of the priming loop. *)
Definition prime (w : World) (_ : unit) (p : Process) : M State unit :=
  try_except any_exception
    (_ <- cpu_percent w p ;; ret tt)
    (fun _ => ret tt).

(** The body of the collecting loop; [proc_list] is the list built so far. *)
Definition collect (cfg : Config) (w : World)
    (proc_list : list sample) (p : Process) : M State (list sample) :=
  try_except any_exception
    (if bool_decide (pid p ∈ IGNORED_PIDS cfg) then ret proc_list
     else
       nm <- call (name p) ;;
       if bool_decide (nm ∈ IGNORED_NAMES cfg) then ret proc_list
       else
         cpu <- cpu_percent w p ;;
         nm' <- call (name p) ;;
         ret (append proc_list (cpu, pid p, nm')))
    (fun _ => ret proc_list).

Definition get_top_processes (cfg : Config) (w : World) (n : Z)
  : M State (list sample) :=
  ps <- iter_processes w ;;
  for_each (prime w) ps tt ;;;
  sleep SETTLE ;;;
  ps' <- iter_processes w ;;
  proc_list <- for_each (collect cfg w) ps' [] ;;
  ret (slice_to n (sort_reverse proc_list)).

(** ** ProcessMonitorApp.refresh_top_processes *)

(** [proc.memory_info().rss / (1024 * 1024)], or 0 when the process is gone
    or may not be read. *)
Definition memory_mb (w : World) (p : Z) : M State Q :=
  try_except gone_or_denied
    (proc <- call (psutil_Process w p) ;;
     rss <- call (h_rss proc) ;;
     ret (inject_Z rss / inject_Z (1024 * 1024))%Q)
    (fun _ => ret 0%Q).

(** The body of the table loop; [alert_found] is the flag so far. *)
Definition add_row (cfg : Config) (w : World)
    (alert_found : bool) (t : sample) : M State bool :=
  let '(cpu, p, nm) := t in
  mem <- memory_mb w p ;;
  let hot := Qgtb cpu (inject_Z (CPU_ALERT_THRESHOLD cfg)) in
  rows <- gets table ;;
  modify (set_table (append rows {|
    item_pid := str_int p;
    item_name := nm;
    item_cpu := format_2f cpu;
    item_mem := format_2f mem;
    item_alert := if hot then "ALERT!" else "";
    alert_red := hot;
    terminate_button := p |})) ;;;
  ret (if hot then true else alert_found).

Definition refresh_top_processes (cfg : Config) (w : World) : M State unit :=
  procs <- get_top_processes cfg w (TOP_N cfg) ;;
  modify (set_table []) ;;;
  alert_found <- for_each (add_row cfg w) procs false ;;
  if alert_found
  then modify (set_tray AlertIcon "Process Monitoring IDS - ALERT")
  else modify (set_tray DefaultIcon "Process Monitoring IDS").

(** The alert signal a pass leaves behind. *)
Definition alert_active (s : State) : bool :=
  match tray_icon s with AlertIcon => true | DefaultIcon => false end.

(** ** ProcessMonitorApp.terminate_process *)

Definition terminate_process (cfg : Config) (w : World) (p : Z)
  : M State unit :=
  try_except any_exception
    (proc <- call (psutil_Process w p) ;;
     nm <- call (h_name proc) ;;
     yes <- question w p "Confirm Termination"
              ("Are you sure you want to terminate " ++ nm ++
               " (PID " ++ str_int p ++ ")?") ;;
     (if yes : bool
      then terminate p proc ;;;
           wait p proc WAIT_TIMEOUT ;;;
           information "Terminated" ("Process " ++ str_int p ++ " terminated.")
      else ret tt) ;;;
     refresh_top_processes cfg w)
    (fun e => critical "Error" (str_exn e)).

(** ** Vocabulary of the properties *)

(** The order of the ranked list: a sample stands before another when its
    CPU percentage is higher, or the percentages are equal and its pid is not
    smaller. *)
Definition ranks_before (a b : sample) : Prop :=
  (cpu_of b < cpu_of a)%Q \/
  ((cpu_of a == cpu_of b)%Q /\ pid_of b <= pid_of a).

(** The order the specification words: descending CPU percentage, equal
    percentages by ascending pid. *)
Definition spec_ranks_before (a b : sample) : Prop :=
  (cpu_of b < cpu_of a)%Q \/
  ((cpu_of a == cpu_of b)%Q /\ pid_of a <= pid_of b).

(** The name under which the collecting loop keeps a process, if it does:
    the process is not on an ignore list and both its name and its CPU times
    can be read. *)
Definition survivor (cfg : Config) (p : Process) : option string :=
  if bool_decide (pid p ∈ IGNORED_PIDS cfg) then None
  else match name p with
       | Raise _ => None
       | Ok nm =>
         if bool_decide (nm ∈ IGNORED_NAMES cfg) then None
         else match cpu_fault p with
              | Some _ => None
              | None => Some nm
              end
       end.

(** The pass that starts in state [s] primes pid [p]: its first enumeration
    yields the process and reading its CPU times does not raise. *)
Definition primed (w : World) (s : State) (p : Z) : Prop :=
  exists q, In q (process_iter w (scans s)) /\ pid q = p /\ cpu_fault q = None.

(** The list a pass returns ([[]] if it raised). *)
Definition ranked (cfg : Config) (w : World) (n : Z) (s : State)
  : list sample :=
  match fst (get_top_processes cfg w n s) with
  | Ok l => l
  | Raise _ => []
  end.

(** The specification's two-phase contract, in its words: whatever a pass
    reports is a second reading, of a process the pass primed. *)
Definition spec_two_phase (cfg : Config) (w : World) (n : Z) (s : State)
  : Prop :=
  forall t, In t (ranked cfg w n s) -> primed w s (pid_of t).

(** Opening a process and reading its memory raise nothing but what
    [refresh_top_processes] catches. *)
Definition memory_faults_caught (w : World) : Prop :=
  forall p,
    match psutil_Process w p with
    | Raise e => gone_or_denied e = true
    | Ok h => match h_rss h with
              | Raise e => gone_or_denied e = true
              | Ok _ => True
              end
    end.

(** What the window shows; sampling does not touch it. *)
Definition window (s : State) : list Row * icon * string * list dialog :=
  (table s, tray_icon s, tray_tooltip s, dialogs s).

(** The message boxes of [terminate_process]. *)
Definition asked (nm : string) (p : Z) : dialog :=
  Question "Confirm Termination"
    ("Are you sure you want to terminate " ++ nm ++
     " (PID " ++ str_int p ++ ")?").

Definition terminated_box (p : Z) : dialog :=
  Information "Terminated" ("Process " ++ str_int p ++ " terminated.").

Definition timeout_box : dialog :=
  Critical "Error" "timeout after 3 seconds".

(** The threshold test of the table loop. *)
Definition above_threshold (cfg : Config) (t : sample) : Prop :=
  (inject_Z (CPU_ALERT_THRESHOLD cfg) < cpu_of t)%Q.

(** The state the priming loop leaves: every process whose CPU times can be
    read has the current instant as baseline. *)
Definition primed_state (ps : list Process) (s : State) : State :=
  fold_left
    (fun s p => match cpu_fault p with
                | None => set_baseline (pid p) s
                | Some _ => s
                end)
    ps s.

(** What the collecting loop appends to its list, and the state it leaves. *)
Fixpoint collected (cfg : Config) (w : World) (ps : list Process) (s : State)
  : list sample * State :=
  match ps with
  | [] => ([], s)
  | p :: ps' =>
    match survivor cfg p with
    | Some nm =>
      let (L, s') := collected cfg w ps' (set_baseline (pid p) s) in
      ((measure w s (pid p), pid p, nm) :: L, s')
    | None => collected cfg w ps' s
    end
  end.

(** The processes of an enumeration that the collecting loop keeps. *)
Definition kept (cfg : Config) (ps : list Process) : list Process :=
  List.filter (fun p => match survivor cfg p with
                   | Some _ => true
                   | None => false
                   end) ps.

(** The state in which the collecting loop of the pass from [s] starts. *)
Definition settled_state (w : World) (s : State) : State :=
  next_scan (process_iter w (S (scans s)))
    (advance SETTLE
       (primed_state (process_iter w (scans s))
          (next_scan (process_iter w (scans s)) s))).

(** The memory the table shows for a pid, in MiB. *)
Definition shown_memory (w : World) (p : Z) : Q :=
  match psutil_Process w p with
  | Ok h => match h_rss h with
            | Ok rss => (inject_Z rss / inject_Z (1024 * 1024))%Q
            | Raise _ => 0%Q
            end
  | Raise _ => 0%Q
  end.

(** The exception that escapes the memory read of a pid, if one does: one
    that is neither [NoSuchProcess] nor [AccessDenied]. *)
Definition memory_fault (w : World) (p : Z) : option exn :=
  match psutil_Process w p with
  | Ok h => match h_rss h with
            | Ok _ => None
            | Raise e => if gone_or_denied e then None else Some e
            end
  | Raise e => if gone_or_denied e then None else Some e
  end.

(** The samples in front of the first one whose memory read lets an
    exception escape, and that exception. *)
Fixpoint first_memory_fault (w : World) (l : list sample)
  : option (list sample * exn) :=
  match l with
  | [] => None
  | t :: l' =>
    match memory_fault w (pid_of t) with
    | Some e => Some ([], e)
    | None =>
      match first_memory_fault w l' with
      | Some (l1, e) => Some (t :: l1, e)
      | None => None
      end
    end
  end.

(** The table row of a sample. *)
Definition row_of (cfg : Config) (w : World) (t : sample) : Row :=
  let hot := Qgtb (cpu_of t) (inject_Z (CPU_ALERT_THRESHOLD cfg)) in
  {| item_pid := str_int (pid_of t);
     item_name := name_of t;
     item_cpu := format_2f (cpu_of t);
     item_mem := format_2f (shown_memory w (pid_of t));
     item_alert := if hot then "ALERT!" else "";
     alert_red := hot;
     terminate_button := pid_of t |}.

End PidMonitor.

(** * pid_monitor.py: class CPUGraph *)

Module CPUGraph.

Record Graph : Type := {
  cpu_data : list Q;
  time_data : list Q;
  timer_active : bool;
  closed : bool;
  (** the series last handed to [ax.plot] *)
  plotted : list Q * list Q
}.

(** [__init__] *)
Definition init : Graph := {|
  cpu_data := []; time_data := [];
  timer_active := true; closed := false; plotted := ([], [])
|}.

(** What one timer tick finds: what
    [psutil.Process(self.pid).cpu_percent(interval=1)] returns or raises, and
    [time.time() - self.start_time]. *)
Record Tick : Type := {
  reading : result Q;
  elapsed : Q
}.

Definition append_reading (cpu t : Q) (g : Graph) : Graph :=
  {| cpu_data := append (cpu_data g) cpu;
     time_data := append (time_data g) t;
     timer_active := timer_active g; closed := closed g;
     plotted := plotted g |}.

Definition truncate (g : Graph) : Graph :=
  {| cpu_data := slice_from (-60) (cpu_data g);
     time_data := slice_from (-60) (time_data g);
     timer_active := timer_active g; closed := closed g;
     plotted := plotted g |}.

Definition plot (g : Graph) : Graph :=
  {| cpu_data := cpu_data g; time_data := time_data g;
     timer_active := timer_active g; closed := closed g;
     plotted := (time_data g, cpu_data g) |}.

Definition stop_and_close (g : Graph) : Graph :=
  {| cpu_data := cpu_data g; time_data := time_data g;
     timer_active := false; closed := true; plotted := plotted g |}.

Definition refresh (t : Tick) : M Graph unit :=
  try_except gone_or_denied
    (cpu <- call (reading t) ;;
     modify (append_reading cpu (elapsed t)) ;;;
     n <- gets (fun g => Z.of_nat (length (cpu_data g))) ;;
     (if 60 <? n then modify truncate else ret tt) ;;;
     modify plot)
    (fun _ => modify stop_and_close).

(** The graphs a window can hold: the fresh one, and what any tick makes of
    one of them, whether the tick returns or raises. *)
Inductive reachable : Graph -> Prop :=
| reach_init : reachable init
| reach_refresh g t : reachable g -> reachable (snd (refresh t g)).

(** The last [k] elements of a list. *)
Definition most_recent {A} (k : nat) (l : list A) : list A :=
  skipn (length l - k) l.

(** The graph after a series of ticks, the first one first. *)
Definition run (ticks : list Tick) (g : Graph) : Graph :=
  fold_left (fun g t => snd (refresh t g)) ticks g.

(** The percentages, and the times, of the ticks whose read returned. *)
Definition readings (ticks : list Tick) : list Q :=
  flat_map (fun t => match reading t with
                     | Ok c => [c]
                     | Raise _ => []
                     end) ticks.

Definition reading_times (ticks : list Tick) : list Q :=
  flat_map (fun t => match reading t with
                     | Ok _ => [elapsed t]
                     | Raise _ => []
                     end) ticks.

End CPUGraph.

(** * ids_monitor.py *)

Module IdsMonitor.

(** What the calls on [psutil.Process(pid)] return or raise: [name()],
    [status()], [cpu_percent(interval=0.1)], [memory_info().rss] in bytes, the
    paths of [open_files()], and for each process of
    [children(recursive=True)] the outcome of its [name()]. *)
Record Process : Type := {
  name : result string;
  status : result string;
  cpu_percent : result Q;
  rss : result Z;
  open_files : result (list string);
  children : result (list (result string))
}.

(** [psutil.Process] *)
Definition World : Type := Z -> result Process.

Definition not_found : string := "<b>Error:</b> Process not found.".
Definition denied : string := "<b>Error:</b> Access denied to the process.".

Definition add_file (process_info : list string) (path : string)
  : M unit (list string) :=
  ret (append process_info ("<b>File Accessed:</b> " ++ path)).

Definition add_child (process_info : list string) (child : result string)
  : M unit (list string) :=
  nm <- call child ;;
  ret (append process_info ("<b>Child Process Executed:</b> " ++ nm)).

(** The [try] block. *)
Definition report (w : World) (p : Z) : M unit (list string) :=
  process <- call (w p) ;;
  nm <- call (name process) ;;
  st <- call (status process) ;;
  let process_info :=
    ["<b>Process Name:</b> " ++ nm; "<b>Process Status:</b> " ++ st] in
  cpu_usage <- call (cpu_percent process) ;;
  rss <- call (rss process) ;;
  let memory_usage := (inject_Z rss / inject_Z (1024 * 1024))%Q in
  let process_info :=
    append process_info
      (if Qgtb cpu_usage 80
       then "<b>CPU Usage:</b> <span style='color:red; font-weight:bold;'>ALERT: High CPU Usage ("
            ++ format_2f cpu_usage ++ "%)</span>"
       else "<b>CPU Usage:</b> " ++ format_2f cpu_usage ++ "%") in
  let process_info :=
    append process_info
      ("<b>Memory Usage:</b> " ++ format_2f memory_usage ++ " MB") in
  files <- call (open_files process) ;;
  process_info <- for_each add_file files process_info ;;
  kids <- call (children process) ;;
  for_each add_child kids process_info.

(** The three [except] clauses, tried in order. *)
Definition on_error (e : exn) : M unit (list string) :=
  match e with
  | NoSuchProcess _ => ret [not_found]
  | AccessDenied _ => ret [denied]
  | _ => ret ["<b>Error:</b> " ++ str_exn e]
  end.

Definition monitor_process_activity (w : World) (p : Z)
  : result (list string) :=
  fst (try_except any_exception (report w p) on_error tt).

(** ** Vocabulary of the properties *)

Definition failure {A} (r : result A) : option exn :=
  match r with
  | Raise e => Some e
  | Ok _ => None
  end.

Fixpoint first_some {A} (l : list (option A)) : option A :=
  match l with
  | [] => None
  | Some a :: _ => Some a
  | None :: l' => first_some l'
  end.

(** The first exception the calls on a pid raise, in the order the report
    makes them: opening the process, its name, status, CPU percentage and
    memory, its open files, its children, then each child's name. *)
Definition first_failure (w : World) (p : Z) : option exn :=
  match w p with
  | Raise e => Some e
  | Ok process =>
    first_some
      [failure (name process); failure (status process);
       failure (cpu_percent process); failure (rss process);
       failure (open_files process); failure (children process);
       match children process with
       | Ok kids => first_some (map failure kids)
       | Raise _ => None
       end]
  end.

(** The two forms of the CPU line, and the one the report chooses. *)
Definition alert_line (cpu : Q) : string :=
  "<b>CPU Usage:</b> <span style='color:red; font-weight:bold;'>ALERT: High CPU Usage ("
  ++ format_2f cpu ++ "%)</span>".

Definition plain_line (cpu : Q) : string :=
  "<b>CPU Usage:</b> " ++ format_2f cpu ++ "%".

Definition cpu_line (cpu : Q) : string :=
  if Qgtb cpu 80 then alert_line cpu else plain_line cpu.

(** The other lines of a report. *)
Definition name_line (nm : string) : string := "<b>Process Name:</b> " ++ nm.

Definition status_line (st : string) : string :=
  "<b>Process Status:</b> " ++ st.

Definition memory_line (r : Z) : string :=
  "<b>Memory Usage:</b> " ++
  format_2f (inject_Z r / inject_Z (1024 * 1024)) ++ " MB".

Definition file_line (path : string) : string :=
  "<b>File Accessed:</b> " ++ path.

Definition child_line (nm : string) : string :=
  "<b>Child Process Executed:</b> " ++ nm.

(** A process all of whose reads return. *)
Definition healthy (nm st : string) (cpu : Q) (r : Z)
    (files kids : list string) : Process :=
  {| name := Ok nm; status := Ok st; cpu_percent := Ok cpu; rss := Ok r;
     open_files := Ok files; children := Ok (map Ok kids) |}.

End IdsMonitor.

(** * pid_monitor.py: the window of ProcessMonitorApp *)

Module AppWindow.
Import PidMonitor.

(** A [QTimer]: whether it is active, and the interval of its last
    [start]. *)
Record QTimer : Type := {
  is_active : bool;
  interval : Z
}.

(** [t.start(ms)] starts the timer, or restarts it when it runs. *)
Definition start (ms : Z) (t : QTimer) : QTimer :=
  {| is_active := true; interval := ms |}.

(** [t.stop()] *)
Definition stop (t : QTimer) : QTimer :=
  {| is_active := false; interval := interval t |}.

Inductive visibility : Type := Normal | Minimized | Hidden.

(** The monitoring state, the refresh timer [self.timer], the single-shot
    [self._drag_resize_timer], how the window is shown, the messages the tray
    icon showed, and the pid of the graph window [self.graph_win]. *)
Record App : Type := {
  monitor : State;
  timer : QTimer;
  drag_resize_timer : QTimer;
  visible : visibility;
  tray_messages : list (string * string);
  graph_win : option Z
}.

Definition with_monitor (s : State) (a : App) : App :=
  {| monitor := s; timer := timer a;
     drag_resize_timer := drag_resize_timer a; visible := visible a;
     tray_messages := tray_messages a; graph_win := graph_win a |}.

Definition with_timer (f : QTimer -> QTimer) (a : App) : App :=
  {| monitor := monitor a; timer := f (timer a);
     drag_resize_timer := drag_resize_timer a; visible := visible a;
     tray_messages := tray_messages a; graph_win := graph_win a |}.

Definition with_drag_timer (f : QTimer -> QTimer) (a : App) : App :=
  {| monitor := monitor a; timer := timer a;
     drag_resize_timer := f (drag_resize_timer a); visible := visible a;
     tray_messages := tray_messages a; graph_win := graph_win a |}.

Definition with_visible (v : visibility) (a : App) : App :=
  {| monitor := monitor a; timer := timer a;
     drag_resize_timer := drag_resize_timer a; visible := v;
     tray_messages := tray_messages a; graph_win := graph_win a |}.

Definition show_message (title text : string) (a : App) : App :=
  {| monitor := monitor a; timer := timer a;
     drag_resize_timer := drag_resize_timer a; visible := visible a;
     tray_messages := append (tray_messages a) (title, text);
     graph_win := graph_win a |}.

Definition with_graph_win (p : Z) (a : App) : App :=
  {| monitor := monitor a; timer := timer a;
     drag_resize_timer := drag_resize_timer a; visible := visible a;
     tray_messages := tray_messages a; graph_win := Some p |}.

(** A computation on the monitoring state, run inside the window. *)
Definition lift {A} (c : M State A) : M App A :=
  fun a => let (r, s') := c (monitor a) in (r, with_monitor s' a).

(** [_pause_updates] *)
Definition _pause_updates : M App unit :=
  running <- gets (fun a => is_active (timer a)) ;;
  if running : bool then modify (with_timer stop) else ret tt.

(** [_resume_updates] *)
Definition _resume_updates : M App unit :=
  running <- gets (fun a => is_active (timer a)) ;;
  if negb running then modify (with_timer (start 5000)) else ret tt.

(** [moveEvent] and [resizeEvent]; the base class's handler adds nothing to
    this state. *)
Definition moveEvent : M App unit :=
  _pause_updates ;;; modify (with_drag_timer (start 1000)).

Definition resizeEvent : M App unit :=
  _pause_updates ;;; modify (with_drag_timer (start 1000)).

(** The drag timer fires: being single-shot it stops, then its slot
    [_resume_updates] runs. *)
Definition drag_resize_timeout : M App unit :=
  modify (with_drag_timer stop) ;;; _resume_updates.

(** The refresh timer fires: its slot is [refresh_top_processes]. *)
Definition timer_timeout (cfg : Config) (w : World) : M App unit :=
  lift (refresh_top_processes cfg w).

(** [closeEvent]: the event is ignored and the window hidden. *)
Definition closeEvent : M App unit := modify (with_visible Hidden).

Inductive event_type : Type := WindowStateChange | OtherChange.

(** [changeEvent]. [isMinimized()] reads the state the window system has set
    before it delivers the event; the [hide] that [QTimer.singleShot(0, ...)]
    defers to the event loop is run here, at the end of the handler. *)
Definition changeEvent (ev : event_type) : M App unit :=
  match ev with
  | WindowStateChange =>
    v <- gets visible ;;
    match v with
    | Minimized =>
      icon <- gets (fun a => tray_icon (monitor a)) ;;
      match icon with
      | AlertIcon =>
        modify (show_message "Minimized"
                  "Process Monitoring IDS is minimized (ALERT active).")
      | DefaultIcon => ret tt
      end ;;;
      modify (with_visible Hidden)
    | _ => ret tt
    end
  | OtherChange => ret tt
  end.

(** The user minimises the window: the window system records it and
    delivers the change event. *)
Definition minimise : M App unit :=
  modify (with_visible Minimized) ;;; changeEvent WindowStateChange.

(** [int(text)] for a decimal numeral with an optional minus sign, the form
    [str] gives an [int]; any other text raises [ValueError]. (Python also
    accepts blanks around the numeral, a plus sign and underscores between
    digits; no cell text has them.) *)
Definition int_text (text : string) : result Z :=
  match NilZero.int_of_string text with
  | Some d => Ok (Z.of_int d)
  | None => Raise (OtherException "invalid literal for int() with base 10")
  end.

(** [self.table.item(row, 0)]: [None] when there is no such row. *)
Definition item_0 (rows : list Row) (row : Z) : option string :=
  if row <? 0 then None
  else option_map item_pid (nth_error rows (Z.to_nat row)).

(** [show_graph(row, _column)]; the result is the pid of the graph window
    it opens, if it opens one. *)
Definition show_graph (row : Z) : M App (option Z) :=
  rows <- gets (fun a => table (monitor a)) ;;
  match item_0 rows row with
  | None => ret None
  | Some text =>
    p <- call (int_text text) ;;
    modify (with_graph_win p) ;;;
    ret (Some p)
  end.

(** The window before [__init__] has started the timer, and [__init__] from
    there on: start the refresh timer, refresh once, show the window. *)
Definition created : App :=
  {| monitor := initial;
     timer := {| is_active := false; interval := 0 |};
     drag_resize_timer := {| is_active := false; interval := 0 |};
     visible := Hidden; tray_messages := []; graph_win := None |}.

Definition init (cfg : Config) (w : World) : M App unit :=
  modify (with_timer (start 5000)) ;;;
  lift (refresh_top_processes cfg w) ;;;
  modify (with_visible Normal).

(** One step of a drag: a move or a resize. *)
Inductive drag_event : Type := Move | Resize.

Definition drag (ev : drag_event) : M App unit :=
  match ev with
  | Move => moveEvent
  | Resize => resizeEvent
  end.

(** The window after a series of drag events. *)
Definition after_drag (evs : list drag_event) (a : App) : App :=
  fold_left (fun a ev => snd (drag ev a)) evs a.

End AppWindow.

(** * ids_monitor.py: the text area *)

Module IdsWindow.
Import IdsMonitor.

(** [update_gui(process_info)]; the state is the list of paragraphs of
    [self.text_area]. *)
Definition update_gui (process_info : list string) : M (list string) unit :=
  modify (fun _ => []) ;;;
  for_each (fun (_ : unit) info => modify (fun text => append text info))
    process_info tt.

(** One report reaching the window: [MonitorThread.run] calls
    [monitor_process_activity] and emits the list, and the slot
    [update_gui] receives it. *)
Definition show_report (w : World) (p : Z) : M (list string) unit :=
  process_info <- call (monitor_process_activity w p) ;;
  update_gui process_info.

End IdsWindow.

(** * Scenarios *)

(** Concrete environments the properties below are run on. *)
Module Scenarios.
Import PidMonitor.

Definition running (p : Z) (nm : string) : Process :=
  {| pid := p; name := Ok nm; cpu_fault := None |}.

(** A process that exits one second after it is asked to. *)
Definition obedient (nm : string) : Handle :=
  {| h_name := Ok nm; h_rss := Ok 52428800;
     h_terminate := None; h_exit_delay := Some (1 # 1) |}.

(** A process that ignores the termination request. *)
Definition stubborn (nm : string) : Handle :=
  {| h_name := Ok nm; h_rss := Ok 52428800;
     h_terminate := None; h_exit_delay := None |}.

(** The specification's first scenario: pids 10, 20, 30 and 40 at 95.0, 50.0,
    81.0 and 10.0 percent. *)
Definition four : World := {|
  process_iter := fun _ =>
    [running 10 "a.exe"; running 20 "b.exe"; running 30 "c.exe";
     running 40 "d.exe"];
  usage := fun p _ _ =>
    (if p =? 10 then 95 else if p =? 20 then 50
     else if p =? 30 then 81 else 10)%Q;
  psutil_Process := fun _ => Ok (obedient "a.exe");
  answers_yes := fun _ => true
|}.

(** The specification's second scenario: pid 5 at exactly 80.0 percent. *)
Definition at_threshold : World := {|
  process_iter := fun _ => [running 5 "e.exe"];
  usage := fun _ _ _ => 80%Q;
  psutil_Process := fun _ => Ok (obedient "e.exe");
  answers_yes := fun _ => true
|}.

(** Two processes that are equally busy. *)
Definition tie : World := {|
  process_iter := fun _ => [running 1 "a.exe"; running 2 "b.exe"];
  usage := fun _ _ _ => 50%Q;
  psutil_Process := fun _ => Ok (obedient "a.exe");
  answers_yes := fun _ => true
|}.

(** A process that starts while the pass sleeps: the first enumeration does
    not have it, the second does. *)
Definition late_start : World := {|
  process_iter := fun k =>
    match k with
    | O => []
    | _ => [running 42 "new.exe"]
    end;
  usage := fun _ _ _ => 90%Q;
  psutil_Process := fun _ => Ok (obedient "new.exe");
  answers_yes := fun _ => true
|}.

(** A batch with an unreadable process, a vanished one and an ignored one
    among two healthy ones. *)
Definition faulty : World := {|
  process_iter := fun _ =>
    [running 10 "a.exe";
     {| pid := 50; name := Raise (AccessDenied "access denied");
        cpu_fault := None |};
     {| pid := 60; name := Ok "gone.exe";
        cpu_fault := Some (NoSuchProcess "process no longer exists") |};
     running 4 "System";
     running 20 "b.exe"];
  usage := fun p _ _ => (if p =? 10 then 95 else 50)%Q;
  psutil_Process := fun _ => Ok (obedient "a.exe");
  answers_yes := fun _ => true
|}.

(** A process that outlives the termination request. *)
Definition hung : World := {|
  process_iter := fun _ => [running 7 "hung.exe"];
  usage := fun _ _ _ => 99%Q;
  psutil_Process := fun _ => Ok (stubborn "hung.exe");
  answers_yes := fun _ => true
|}.

(** The batch of [four], where reading the memory of pid 30 fails with an
    operating-system error psutil does not translate. *)
Definition sealed : World := {|
  process_iter := process_iter four;
  usage := usage four;
  psutil_Process := fun p =>
    if p =? 30
    then Ok {| h_name := Ok "c.exe";
               h_rss := Raise (OtherException "[WinError 87]");
               h_terminate := None; h_exit_delay := None |}
    else Ok (obedient "a.exe");
  answers_yes := fun _ => true
|}.

(** One process whose CPU times cannot be read during the third
    enumeration, the priming loop of a second pass; its usage is 77 percent
    over any interval longer than a second and 50 percent otherwise. *)
Definition flaky : World := {|
  process_iter := fun k =>
    [ {| pid := 9; name := Ok "f.exe";
         cpu_fault := match k with
                      | 2%nat => Some (AccessDenied "access denied")
                      | _ => None
                      end |} ];
  usage := fun _ t0 t1 => if Qle_bool 1 (t1 - t0) then 77%Q else 50%Q;
  psutil_Process := fun _ => Ok (obedient "f.exe");
  answers_yes := fun _ => true
|}.

(** Five seconds after a first pass over [flaky]. *)
Definition later : State :=
  advance 5 (snd (get_top_processes defaults flaky 3 initial)).

(** A graph whose history is full: sixty ticks at 20 percent, one a
    second. *)
Definition full_graph : CPUGraph.Graph :=
  CPUGraph.run
    (map (fun k => {| CPUGraph.reading := Ok 20%Q;
                      CPUGraph.elapsed := inject_Z (Z.of_nat k) |})
       (seq 1 60))
    CPUGraph.init.

(** The batch of [four], with a user who answers No. *)
Definition declined : World := {|
  process_iter := process_iter four;
  usage := usage four;
  psutil_Process := psutil_Process four;
  answers_yes := fun _ => false
|}.

End Scenarios.

(** * Properties *)

(** ** The order on tuples *)

Section CompareLaws.
Context {A B : Type}.
Variable cA : A -> A -> comparison.
Variable cB : B -> B -> comparison.
Hypothesis lawsA : compare_laws cA.
Hypothesis lawsB : compare_laws cB.

Lemma compare_eq_r (a b c : A) : cA a b = Eq -> cA c a = cA c b.
Proof.
  destruct lawsA as (anti & _ & eqc). intros H.
  rewrite (anti a c), (anti b c). f_equal. now apply eqc.
Qed.

Lemma compare_eq_sym (a b : A) : cA a b = Eq -> cA b a = Eq.
Proof.
  destruct lawsA as (anti & _ & _). intros H. now rewrite anti, H.
Qed.

Lemma lex_laws :
  compare_laws (fun x y : A * B =>
    match cA (fst x) (fst y) with
    | Eq => cB (snd x) (snd y)
    | c => c
    end).
Proof.
  pose proof compare_eq_r as eqr.
  destruct lawsA as (antiA & transA & eqA).
  destruct lawsB as (antiB & transB & eqB).
  repeat split.
  - intros [a1 a2] [b1 b2]; simpl.
    rewrite (antiA a1 b1), (antiB a2 b2).
    now destruct (cA a1 b1).
  - intros [a1 a2] [b1 b2] [c1 c2]; simpl.
    destruct (cA a1 b1) eqn:Hab; try discriminate.
    + rewrite (eqA _ _ c1 Hab).
      destruct (cA b1 c1); try discriminate; eauto.
    + intros _. destruct (cA b1 c1) eqn:Hbc; try discriminate.
      * now rewrite <- (eqr _ _ a1 Hbc), Hab.
      * now rewrite (transA _ _ _ Hab Hbc).
  - intros [a1 a2] [b1 b2] [c1 c2]; simpl.
    destruct (cA a1 b1) eqn:Hab; try discriminate.
    intros H. rewrite (eqA _ _ c1 Hab).
    destruct (cA b1 c1); auto.
Qed.

(** "Not smaller than" is transitive. *)
Lemma compare_ge_trans (a b c : A) :
  cA a b <> Lt -> cA b c <> Lt -> cA a c <> Lt.
Proof.
  pose proof compare_eq_r as eqr.
  destruct lawsA as (anti & trans & eqc).
  intros Hab Hbc.
  destruct (cA a b) eqn:E1; try congruence.
  - now rewrite (eqc _ _ c E1).
  - assert (Hba : cA b a = Lt) by now rewrite anti, E1.
    destruct (cA b c) eqn:E2; try congruence.
    + rewrite <- (eqr _ _ a E2), E1. discriminate.
    + assert (Hcb : cA c b = Lt) by now rewrite anti, E2.
      rewrite anti, (trans _ _ _ Hcb Hba). discriminate.
Qed.

End CompareLaws.

Lemma Qcompare_laws : compare_laws Qcompare.
Proof.
  repeat split.
  - intros a b. symmetry. apply Qcompare_antisym.
  - intros a b c. rewrite <- !Qlt_alt. apply Qlt_trans.
  - intros a b c H. apply Qeq_alt in H. now rewrite H.
Qed.

Lemma Zcompare_laws : compare_laws Z.compare.
Proof.
  repeat split.
  - intros a b. apply Z.compare_antisym.
  - intros a b c. rewrite !Z.compare_lt_iff. lia.
  - intros a b c H. apply Z.compare_eq in H. now subst.
Qed.

Lemma Ascii_compare_laws : compare_laws Ascii.compare.
Proof.
  repeat split.
  - intros a b. apply Ascii.compare_antisym.
  - intros a b c. unfold Ascii.compare. rewrite !N.compare_lt_iff. lia.
  - intros a b c H. apply Ascii.compare_eq_iff in H. now subst.
Qed.

Lemma String_compare_lt_trans (a b c : string) :
  String.compare a b = Lt -> String.compare b c = Lt -> String.compare a c = Lt.
Proof.
  destruct Ascii_compare_laws as (anti & trans & eqc).
  revert b c. induction a as [|x a IH]; intros [|y b] [|z c]; simpl;
    try discriminate; auto.
  destruct (Ascii.compare x y) eqn:Hxy; try discriminate.
  - apply Ascii.compare_eq_iff in Hxy. subst y.
    destruct (Ascii.compare x z); try discriminate; eauto.
  - intros _. destruct (Ascii.compare y z) eqn:Hyz; try discriminate.
    + apply Ascii.compare_eq_iff in Hyz. subst z. now rewrite Hxy.
    + now rewrite (trans _ _ _ Hxy Hyz).
Qed.

Lemma String_compare_laws : compare_laws String.compare.
Proof.
  repeat split.
  - intros a b. apply String.compare_antisym.
  - apply String_compare_lt_trans.
  - intros a b c H. apply String.compare_eq_iff in H. now subst.
Qed.

Lemma tuple_compare_laws : compare_laws tuple_compare.
Proof.
  pose proof (lex_laws _ _ (lex_laws _ _ Qcompare_laws Zcompare_laws)
                String_compare_laws) as (anti & trans & eqc).
  assert (E : forall a b, tuple_compare a b =
     match (match Qcompare (fst (fst a)) (fst (fst b)) with
            | Eq => Z.compare (snd (fst a)) (snd (fst b))
            | c => c
            end) with
     | Eq => String.compare (snd a) (snd b)
     | c => c
     end).
  { intros a b. unfold tuple_compare, cpu_of, pid_of, name_of.
    destruct (Qcompare _ _); auto. }
  repeat split.
  - intros a b. rewrite !E. apply anti.
  - intros a b c. rewrite !E. apply trans.
  - intros a b c. rewrite !E. apply eqc.
Qed.

(** On tuples too, "not smaller than" is transitive. *)
Lemma tuple_ge_trans (a b c : sample) :
  tuple_lt a b = false -> tuple_lt b c = false -> tuple_lt a c = false.
Proof.
  unfold tuple_lt. intros Hab Hbc.
  pose proof (compare_ge_trans _ tuple_compare_laws a b c) as H.
  destruct (tuple_compare a b); try discriminate;
  destruct (tuple_compare b c); try discriminate;
  destruct (tuple_compare a c); auto; exfalso; apply H; congruence.
Qed.

Lemma tuple_ge_total (a b : sample) :
  tuple_lt a b = true -> tuple_lt b a = false.
Proof.
  destruct tuple_compare_laws as (anti & _ & _).
  unfold tuple_lt. rewrite (anti a b).
  now destruct (tuple_compare a b).
Qed.

(** ** The sort and the slices *)

Lemma insert_reverse_perm (x : sample) (l : list sample) :
  Permutation (x :: l) (insert_reverse x l).
Proof.
  induction l as [|y l IH]; simpl; auto.
  destruct (tuple_lt x y); auto.
  rewrite perm_swap. now constructor.
Qed.

Lemma sort_reverse_perm (l : list sample) : Permutation l (sort_reverse l).
Proof.
  induction l as [|x l IH]; simpl; auto.
  rewrite <- insert_reverse_perm. now constructor.
Qed.

Lemma in_sort_reverse (t : sample) (l : list sample) :
  In t (sort_reverse l) <-> In t l.
Proof.
  split; apply Permutation_in;
    [symmetry|]; apply sort_reverse_perm.
Qed.

Lemma insert_reverse_sorted (x : sample) (l : list sample) :
  StronglySorted (fun a b => tuple_lt a b = false) l ->
  StronglySorted (fun a b => tuple_lt a b = false) (insert_reverse x l).
Proof.
  induction 1 as [|y l Hs IH Hy]; simpl.
  - repeat constructor.
  - destruct (tuple_lt x y) eqn:Hxy.
    + constructor; auto.
      apply (List.Forall_forall (fun b => tuple_lt y b = false)).
      intros b Hb.
      apply (Permutation_in _ (Permutation_sym (insert_reverse_perm x l))) in Hb.
      destruct Hb as [<-|Hb].
      * now apply tuple_ge_total.
      * now apply (proj1 (List.Forall_forall _ _) Hy).
    + constructor; [now constructor|].
      constructor; auto.
      apply (List.Forall_forall (fun b => tuple_lt x b = false)).
      intros b Hb. apply tuple_ge_trans with y; auto.
      now apply (proj1 (List.Forall_forall _ _) Hy).
Qed.

Lemma sort_reverse_sorted (l : list sample) :
  StronglySorted (fun a b => tuple_lt a b = false) (sort_reverse l).
Proof.
  induction l; simpl; [constructor | now apply insert_reverse_sorted].
Qed.

Lemma not_lt_ranks_before (a b : sample) :
  tuple_lt a b = false -> PidMonitor.ranks_before a b.
Proof.
  unfold tuple_lt, tuple_compare, PidMonitor.ranks_before.
  destruct (Qcompare (cpu_of a) (cpu_of b)) eqn:Hq; try discriminate.
  - apply Qeq_alt in Hq.
    destruct (Z.compare (pid_of a) (pid_of b)) eqn:Hz; try discriminate;
      intros _; right; split; auto.
    + apply Z.compare_eq in Hz. lia.
    + apply Z.compare_gt_iff in Hz. lia.
  - intros _. left. now apply Qgt_alt in Hq.
Qed.

Lemma StronglySorted_weaken {A} (R R' : A -> A -> Prop) (l : list A) :
  (forall a b, R a b -> R' a b) -> StronglySorted R l -> StronglySorted R' l.
Proof.
  intros HR. induction 1 as [|a l Hs IH Ha]; constructor; auto.
  revert Ha. apply List.Forall_impl. auto.
Qed.

Lemma StronglySorted_firstn {A} (R : A -> A -> Prop) (k : nat) (l : list A) :
  StronglySorted R l -> StronglySorted R (firstn k l).
Proof.
  intros H. revert k. induction H as [|a l Hs IH Ha]; intros [|k]; simpl;
    try constructor; auto.
  apply (List.Forall_forall (R a)). intros b Hb.
  apply (proj1 (List.Forall_forall _ _) Ha).
  rewrite <- (firstn_skipn k l). apply in_or_app. now left.
Qed.

Lemma slice_to_firstn {A} (n : Z) (l : list A) :
  exists k, slice_to n l = firstn k l.
Proof. unfold slice_to. destruct (n <? 0); eauto. Qed.

Lemma in_slice_to {A} (n : Z) (l : list A) (x : A) :
  In x (slice_to n l) -> In x l.
Proof.
  destruct (slice_to_firstn n l) as [k ->]. intros H.
  rewrite <- (firstn_skipn k l). apply in_or_app. now left.
Qed.

Lemma slice_to_length {A} (n : Z) (l : list A) :
  0 <= n -> Z.of_nat (length (slice_to n l)) <= n.
Proof.
  intros Hn. unfold slice_to.
  destruct (Z.ltb_spec n 0); [lia|].
  rewrite length_firstn. lia.
Qed.


Lemma sort_reverse_length (l : list sample) :
  length (sort_reverse l) = length l.
Proof. symmetry. apply Permutation_length, sort_reverse_perm. Qed.

(** ** One pass of [get_top_processes] *)

Section Pass.
Import PidMonitor.
Variable cfg : Config.
Variable w : World.

(** An enumeration keeps the baselines of the pids it yields and no
    other. *)
Lemma still_listed_lookup (ps : list Process) (m : gmap Z Q) (q : Z) :
  still_listed ps m !! q =
  if bool_decide (q ∈ map pid ps) then m !! q else None.
Proof.
  unfold still_listed. case_bool_decide as Hq.
  - destruct (m !! q) as [x|] eqn:Hm.
    + apply map_lookup_filter_Some. auto.
    + apply map_lookup_filter_None. left. exact Hm.
  - apply map_lookup_filter_None. right. intros x _. exact Hq.
Qed.

Lemma prime_run (p : Process) (s : State) :
  prime w tt p s =
  (Ok tt, match cpu_fault p with
          | None => set_baseline (pid p) s
          | Some _ => s
          end).
Proof.
  unfold prime, try_except, bind, cpu_percent, any_exception, ret.
  now destruct (cpu_fault p).
Qed.

(** The priming loop never raises; it leaves the clock alone and gives every
    process it could read the current instant as baseline. *)
Lemma prime_loop (ps : list Process) (s : State) :
  exists s',
    for_each (prime w) ps tt s = (Ok tt, s') /\
    clock s' = clock s /\ scans s' = scans s /\ window s' = window s /\
    forall q,
      (exists p, In p ps /\ pid p = q /\ cpu_fault p = None) \/
      last_cpu s !! q = Some (clock s) ->
      last_cpu s' !! q = Some (clock s).
Proof.
  revert s. induction ps as [|p ps IH]; intros s.
  - exists s. repeat split; auto.
    intros q [(p & [] & _)|H]; auto.
  - simpl. unfold bind at 1. rewrite prime_run.
    set (s1 := match cpu_fault p with
               | None => set_baseline (pid p) s
               | Some _ => s
               end).
    assert (Hc : clock s1 = clock s) by (subst s1; now destruct (cpu_fault p)).
    assert (Hn : scans s1 = scans s) by (subst s1; now destruct (cpu_fault p)).
    assert (Hw : window s1 = window s) by (subst s1; now destruct (cpu_fault p)).
    destruct (IH s1) as (s' & Hrun & Hc' & Hn' & Hw' & Hb).
    exists s'. rewrite Hrun. repeat split; try congruence.
    intros q Hq. rewrite <- Hc. apply Hb. rewrite Hc.
    destruct Hq as [(p' & [<-|Hin] & Hpid & Hok)|Hq].
    + right. subst s1. rewrite Hok. simpl. subst q. apply lookup_insert_eq.
    + left. eauto.
    + subst s1. destruct (cpu_fault p); auto. simpl.
      destruct (decide (pid p = q)) as [->|Hne].
      * right. apply lookup_insert_eq.
      * right. now rewrite lookup_insert_ne.
Qed.

Lemma collect_run (acc : list sample) (p : Process) (s : State) :
  collect cfg w acc p s =
  match survivor cfg p with
  | Some nm => (Ok (append acc (measure w s (pid p), pid p, nm)),
                set_baseline (pid p) s)
  | None => (Ok acc, s)
  end.
Proof.
  unfold collect, survivor, try_except, bind, call, cpu_percent,
    any_exception, ret.
  destruct (bool_decide (pid p ∈ IGNORED_PIDS cfg)); auto.
  destruct (name p) as [nm|e]; auto.
  destruct (bool_decide (nm ∈ IGNORED_NAMES cfg)); auto.
  now destruct (cpu_fault p).
Qed.

Lemma measure_other (s : State) (p q : Z) :
  p <> q -> measure w (set_baseline p s) q = measure w s q.
Proof.
  intros Hne. unfold measure, set_baseline; simpl.
  now rewrite lookup_insert_ne.
Qed.

(** The collecting loop never raises; it appends one tuple per surviving
    process, in enumeration order, each with the reading its process had when
    the loop started (pids being distinct). *)
Lemma collect_loop (ps : list Process) (acc : list sample) (s : State) :
  exists L s',
    for_each (collect cfg w) ps acc s = (Ok (acc ++ L)%list, s') /\
    clock s' = clock s /\ scans s' = scans s /\ window s' = window s /\
    (forall t, In t L ->
       exists p, In p ps /\ survivor cfg p = Some (name_of t) /\
                 pid_of t = pid p) /\
    (forall p nm, In p ps -> survivor cfg p = Some nm ->
       exists c, In (c, pid p, nm) L) /\
    (NoDup (map pid ps) ->
     forall t, In t L -> cpu_of t = measure w s (pid_of t)) /\
    (length L <= length ps)%nat.
Proof.
  revert acc s. induction ps as [|p ps IH]; intros acc s.
  - exists [], s. rewrite app_nil_r. repeat split; auto; try easy.
  - simpl. unfold bind at 1. rewrite collect_run.
    destruct (survivor cfg p) as [nm|] eqn:Hp.
    + destruct (IH (append acc (measure w s (pid p), pid p, nm))
                   (set_baseline (pid p) s))
        as (L & s' & Hrun & Hc & Hn & Hw & Hfrom & Hall & Hval & Hlen).
      exists ((measure w s (pid p), pid p, nm) :: L), s'.
      rewrite Hrun. unfold append. rewrite <- List.app_assoc. simpl.
      repeat split; auto; try (simpl; lia).
      * intros t [<-|Ht]; [exists p; simpl; auto|].
        destruct (Hfrom t Ht) as (p' & ? & ? & ?). exists p'. simpl. auto.
      * intros p' nm' [<-|Hin] Hs.
        -- exists (measure w s (pid p)). left. congruence.
        -- destruct (Hall p' nm' Hin Hs) as [c Hc']. exists c. now right.
      * intros Hnd t [<-|Ht]; [reflexivity|].
        inversion Hnd as [|? ? Hnotin Hnd']; subst.
        rewrite (Hval Hnd' t Ht). apply measure_other.
        intros Heq. apply Hnotin.
        destruct (Hfrom t Ht) as (p' & Hin & _ & Hpid).
        rewrite Heq, Hpid. apply list_elem_of_In. now apply in_map.
    + destruct (IH acc s)
        as (L & s' & Hrun & Hc & Hn & Hw & Hfrom & Hall & Hval & Hlen).
      exists L, s'. rewrite Hrun. repeat split; auto; try (simpl; lia).
      * intros t Ht. destruct (Hfrom t Ht) as (p' & ? & ? & ?).
        exists p'. simpl. auto.
      * intros p' nm' [<-|Hin] Hs; [congruence|eauto].
      * intros Hnd. inversion Hnd; subst. auto.
Qed.

(** A pass never raises. Its result is the sorted, truncated list of the
    tuples of the processes that survive the second enumeration; a process
    the pass primed is reported with its usage over the settle interval. *)
Lemma get_top_processes_run (n : Z) (s : State) :
  exists L s',
    get_top_processes cfg w n s = (Ok (slice_to n (sort_reverse L)), s') /\
    window s' = window s /\ clock s' = (clock s + SETTLE)%Q /\
    (length L <= length (process_iter w (S (scans s))))%nat /\
    (forall t, In t L ->
       exists p, In p (process_iter w (S (scans s))) /\
                 survivor cfg p = Some (name_of t) /\ pid_of t = pid p) /\
    (forall p nm, In p (process_iter w (S (scans s))) ->
       survivor cfg p = Some nm -> exists c, In (c, pid p, nm) L) /\
    (NoDup (map pid (process_iter w (S (scans s)))) ->
     forall t, In t L -> primed w s (pid_of t) ->
       cpu_of t = usage w (pid_of t) (clock s) (clock s + SETTLE)%Q).
Proof.
  unfold get_top_processes, iter_processes, sleep, modify.
  unfold bind at 1.
  destruct (prime_loop (process_iter w (scans s))
              (next_scan (process_iter w (scans s)) s))
    as (s1 & Hrun1 & Hc1 & Hn1 & Hw1 & Hb1).
  unfold bind at 1. rewrite Hrun1.
  unfold bind at 1. unfold bind at 1.
  destruct (collect_loop (process_iter w (scans (advance SETTLE s1))) []
              (next_scan (process_iter w (scans (advance SETTLE s1)))
                 (advance SETTLE s1)))
    as (L & s3 & Hrun3 & Hc3 & Hn3 & Hw3 & Hfrom & Hall & Hval & Hlen).
  unfold bind at 1. rewrite Hrun3. simpl.
  assert (Hscan : scans (advance SETTLE s1) = S (scans s))
    by (simpl; rewrite Hn1; reflexivity).
  rewrite Hscan in *.
  exists L, s3. unfold ret. repeat split; auto.
  - rewrite Hw3. unfold window. simpl. apply Hw1.
  - rewrite Hc3. simpl. now rewrite Hc1.
  - intros Hnd t Ht Hpr. rewrite (Hval Hnd t Ht).
    unfold measure. simpl.
    rewrite still_listed_lookup, bool_decide_eq_true_2.
    + rewrite (Hb1 (pid_of t)); [now rewrite Hc1|]. left. exact Hpr.
    + destruct (Hfrom t Ht) as (p & Hin & _ & ->).
      apply list_elem_of_In. now apply in_map.
Qed.

End Pass.

(** ** The ranked list *)

Section Ranked.
Import PidMonitor.

Lemma survivor_Some (cfg : Config) (p : Process) (nm : string) :
  survivor cfg p = Some nm <->
  (pid p ∉ IGNORED_PIDS cfg) /\ name p = Ok nm /\
  (nm ∉ IGNORED_NAMES cfg) /\ cpu_fault p = None.
Proof.
  unfold survivor. case_bool_decide as Hp.
  { split; [discriminate | tauto]. }
  destruct (name p) as [nm'|e].
  2: { split; [discriminate | intros (_ & ? & _); discriminate]. }
  case_bool_decide as Hn.
  { split; [discriminate|]. intros (_ & [= ->] & ? & _). tauto. }
  destruct (cpu_fault p).
  { split; [discriminate | intros (_ & _ & _ & ?); discriminate]. }
  split.
  - intros [= ->]. tauto.
  - intros (_ & [= ->] & _). reflexivity.
Qed.

(** What a pass returns is what [ranked] names. *)
Lemma ranked_run (cfg : Config) (w : World) (n : Z) (s : State)
    (l : list sample) (s' : State) :
  get_top_processes cfg w n s = (Ok l, s') -> ranked cfg w n s = l.
Proof. unfold ranked. now intros ->. Qed.

(** C2, as amended. The ranked list of every pass is sorted by descending
    CPU percentage, and of two samples with equal percentage the one with the
    larger pid comes first: [sort(reverse=True)] reverses the order of every
    tuple position, the pid's too. *)
Theorem ranked_descending_cpu_then_descending_pid
    (cfg : Config) (w : World) (n : Z) (s : State) :
  exists l s',
    get_top_processes cfg w n s = (Ok l, s') /\
    StronglySorted ranks_before l.
Proof.
  destruct (get_top_processes_run cfg w n s) as (L & s' & Hrun & _).
  exists (slice_to n (sort_reverse L)), s'. split; [exact Hrun|].
  destruct (slice_to_firstn n (sort_reverse L)) as [k ->].
  apply StronglySorted_firstn.
  apply StronglySorted_weaken with (R := fun a b => tuple_lt a b = false).
  - apply not_lt_ranks_before.
  - apply sort_reverse_sorted.
Qed.

(** C2, as stated, fails: with pids 1 and 2 both at 50 percent the pass
    returns pid 2 before pid 1, which ascending pids forbid. *)
Lemma equal_cpu_not_by_ascending_pid :
  ~ StronglySorted spec_ranks_before
      (ranked defaults Scenarios.tie 3 initial).
Proof.
  assert (E : ranked defaults Scenarios.tie 3 initial =
              [(50%Q, 2, "b.exe"); (50%Q, 1, "a.exe")]) by reflexivity.
  rewrite E. intros H.
  apply StronglySorted_inv in H as [_ H].
  apply Forall_inv in H.
  destruct H as [H|[_ H]].
  - vm_compute in H. discriminate.
  - vm_compute in H. now apply H.
Qed.

(** C3. For a non-negative [n] a pass returns at most [n] samples; the table
    asks for [TOP_N], 3 unless changed, which is the default of [n] too. *)
Theorem ranked_length_at_most_n
    (cfg : Config) (w : World) (n : Z) (s : State) :
  0 <= n ->
  (exists l s',
     get_top_processes cfg w n s = (Ok l, s') /\
     Z.of_nat (length l) <= n) /\
  TOP_N defaults = 3 /\ default_n = 3.
Proof.
  intros Hn. split; [|split; reflexivity].
  destruct (get_top_processes_run cfg w n s) as (L & s' & Hrun & _).
  exists (slice_to n (sort_reverse L)), s'. split; [exact Hrun|].
  now apply slice_to_length.
Qed.

Lemma ranked_length_at_most_n_witness :
  0 <= 3 /\
  ((exists l s',
      get_top_processes defaults Scenarios.four 3 initial = (Ok l, s') /\
      Z.of_nat (length l) <= 3) /\
   TOP_N defaults = 3 /\ default_n = 3).
Proof.
  split; [lia|].
  apply (ranked_length_at_most_n defaults Scenarios.four 3 initial). lia.
Defined.

(** C4. No sample of a ranked list has a pid of [IGNORED_PIDS] or a name of
    [IGNORED_NAMES], whatever its CPU percentage; by default these are the
    pids 0 and 4 and the names of the idle and system processes. *)
Theorem ignored_never_ranked
    (cfg : Config) (w : World) (n : Z) (s : State) :
  (exists l s',
     get_top_processes cfg w n s = (Ok l, s') /\
     forall t, In t l ->
       (pid_of t ∉ IGNORED_PIDS cfg) /\ (name_of t ∉ IGNORED_NAMES cfg)) /\
  IGNORED_PIDS defaults = {[ 0; 4 ]} /\
  IGNORED_NAMES defaults = {[ "System Idle Process"; "System" ]}.
Proof.
  split; [|split; reflexivity].
  destruct (get_top_processes_run cfg w n s)
    as (L & s' & Hrun & _ & _ & _ & Hfrom & _).
  exists (slice_to n (sort_reverse L)), s'. split; [exact Hrun|].
  intros t Ht. apply in_slice_to in Ht.
  apply (proj1 (in_sort_reverse _ _)) in Ht.
  destruct (Hfrom t Ht) as (p & _ & Hs & Hpid).
  apply survivor_Some in Hs as (Hp & _ & Hn & _).
  rewrite Hpid. auto.
Qed.

End Ranked.

(** ** The two-phase measurement and the failure policy *)

Section Sampling.
Import PidMonitor.

(** C5, as amended. A pass primes, sleeps 0.8 seconds (at least the 0.5 the
    specification asks for) and reads again; for every process it primed, the
    percentage it reports is the usage between the priming read and the read
    that follows the sleep. The priming value itself is not reported. *)
Theorem primed_process_reports_settled_usage
    (cfg : Config) (w : World) (n : Z) (s : State) :
  NoDup (map pid (process_iter w (S (scans s)))) ->
  exists l s',
    get_top_processes cfg w n s = (Ok l, s') /\
    clock s' = (clock s + SETTLE)%Q /\ (1 # 2 <= SETTLE)%Q /\
    forall t, In t l -> primed w s (pid_of t) ->
      cpu_of t = usage w (pid_of t) (clock s) (clock s + SETTLE)%Q.
Proof.
  intros Hnd.
  destruct (get_top_processes_run cfg w n s)
    as (L & s' & Hrun & _ & Hclock & _ & _ & _ & Hval).
  exists (slice_to n (sort_reverse L)), s'.
  repeat split; auto.
  - discriminate.
  - intros t Ht Hpr. apply in_slice_to in Ht.
    apply (proj1 (in_sort_reverse _ _)) in Ht. now apply Hval.
Qed.

Lemma primed_process_reports_settled_usage_witness :
  NoDup (map pid (process_iter Scenarios.four (S (scans initial)))) /\
  exists l s',
    get_top_processes defaults Scenarios.four 3 initial = (Ok l, s') /\
    clock s' = (clock initial + SETTLE)%Q /\ (1 # 2 <= SETTLE)%Q /\
    forall t, In t l -> primed Scenarios.four initial (pid_of t) ->
      cpu_of t =
      usage Scenarios.four (pid_of t) (clock initial)
        (clock initial + SETTLE)%Q.
Proof.
  assert (Hnd : NoDup (map pid
                         (process_iter Scenarios.four (S (scans initial))))).
  { apply NoDup_ListNoDup. simpl.
    repeat (constructor; [simpl; intuition discriminate|]). constructor. }
  split; [exact Hnd|].
  exact (primed_process_reports_settled_usage
           defaults Scenarios.four 3 initial Hnd).
Defined.

(** C5, as stated, fails: a process that starts during the sleep is read once
    only, and the pass reports the 0.0 that [cpu_percent] returns on a first
    call. *)
Lemma late_process_reported_from_single_read :
  ranked defaults Scenarios.late_start 3 initial = [(0%Q, 42, "new.exe")] /\
  ~ spec_two_phase defaults Scenarios.late_start 3 initial.
Proof.
  assert (E : ranked defaults Scenarios.late_start 3 initial =
              [(0%Q, 42, "new.exe")]) by reflexivity.
  split; [exact E|].
  intros H. destruct (H (0%Q, 42, "new.exe")) as (q & Hq & _).
  - rewrite E. now left.
  - exact Hq.
Qed.


(** The batch of [Scenarios.faulty]: the unreadable, the vanished and the
    ignored process are left out, the two healthy ones are returned. *)
Example faulty_batch_keeps_the_healthy :
  get_top_processes defaults Scenarios.faulty 3 initial =
  (Ok [(95%Q, 10, "a.exe"); (50%Q, 20, "b.exe")],
   snd (get_top_processes defaults Scenarios.faulty 3 initial)).
Proof. reflexivity. Qed.

End Sampling.

(** ** The table and the alert *)

Section Alert.
Import PidMonitor.
Variable cfg : Config.
Variable w : World.

Lemma Qgtb_above (t : sample) :
  Qgtb (cpu_of t) (inject_Z (CPU_ALERT_THRESHOLD cfg)) = true <->
  above_threshold cfg t.
Proof.
  unfold Qgtb, above_threshold.
  destruct (Qcompare _ _) eqn:H.
  - split; [discriminate|]. intros Hlt. apply Qgt_alt in Hlt. congruence.
  - split; [discriminate|]. intros Hlt. apply Qgt_alt in Hlt. congruence.
  - split; auto. intros _. now apply Qgt_alt.
Qed.

(** A loop keeps what each of its iterations keeps, whether it ends or
    raises. *)
Lemma for_each_keeps {S A B X} (f : S -> X) (body : B -> A -> M S B) :
  (forall acc x s, f (snd (body acc x s)) = f s) ->
  forall l acc s, f (snd (for_each body l acc s)) = f s.
Proof.
  intros Hbody. induction l as [|x l IH]; intros acc s; simpl; auto.
  unfold bind. specialize (Hbody acc x s).
  destruct (body acc x s) as [[acc'|e] s1]; simpl in *.
  - now rewrite IH.
  - exact Hbody.
Qed.

Lemma memory_mb_state (p : Z) (s : State) : snd (memory_mb w p s) = s.
Proof.
  unfold memory_mb, try_except, bind, call, ret.
  destruct (psutil_Process w p) as [h|e]; simpl.
  - destruct (h_rss h) as [r|e]; simpl; auto.
    now destruct (gone_or_denied e).
  - now destruct (gone_or_denied e).
Qed.

Lemma add_row_dialogs (acc : bool) (t : sample) (s : State) :
  dialogs (snd (add_row cfg w acc t s)) = dialogs s /\
  clock (snd (add_row cfg w acc t s)) = clock s.
Proof.
  destruct t as [[cpu p] nm]. unfold add_row, bind, gets, modify, ret.
  pose proof (memory_mb_state p s) as Hm.
  destruct (memory_mb w p s) as [[m|e] s1]; simpl in *; subst s1; auto.
Qed.

(** Refreshing the table shows no message box and takes the settle time,
    also when it raises. *)
Lemma refresh_top_processes_frame (s : State) :
  dialogs (snd (refresh_top_processes cfg w s)) = dialogs s /\
  clock (snd (refresh_top_processes cfg w s)) = (clock s + SETTLE)%Q.
Proof.
  unfold refresh_top_processes, bind, modify.
  destruct (get_top_processes_run cfg w (TOP_N cfg) s)
    as (L & s1 & -> & Hw & Hc & _).
  assert (Hd : dialogs s1 = dialogs s) by (now injection Hw).
  set (procs := slice_to (TOP_N cfg) (sort_reverse L)).
  pose proof (for_each_keeps (fun s => (dialogs s, clock s)) (add_row cfg w)) as K.
  specialize (K (fun acc x s => f_equal2 pair (proj1 (add_row_dialogs acc x s))
                                  (proj2 (add_row_dialogs acc x s)))).
  specialize (K procs false (set_table [] s1)). simpl in K.
  destruct (for_each (add_row cfg w) procs false (set_table [] s1))
    as [[[|]|e] s2]; simpl in *; injection K as K1 K2; split; congruence.
Qed.

Hypothesis caught : memory_faults_caught w.




End Alert.

Section AlertClaims.
Import PidMonitor.



(** C1, as stated for every batch, fails: in [Scenarios.sealed] the ranked
    list has a sample at 95 percent, but reading the memory of pid 30 raises
    an exception the table loop does not catch; the refresh raises it and
    the tray icon is never set to the alert. *)
Lemma uncaught_memory_fault_misses_the_alert :
  (exists t,
     In t (ranked defaults Scenarios.sealed (TOP_N defaults) initial) /\
     above_threshold defaults t) /\
  fst (refresh_top_processes defaults Scenarios.sealed initial) =
    Raise (OtherException "[WinError 87]") /\
  alert_active
    (snd (refresh_top_processes defaults Scenarios.sealed initial)) = false.
Proof.
  split; [|split; vm_compute; reflexivity].
  exists (95%Q, 10, "a.exe"). split.
  - assert (E : ranked defaults Scenarios.sealed (TOP_N defaults) initial =
                [(95%Q, 10, "a.exe"); (81%Q, 30, "c.exe");
                 (50%Q, 20, "b.exe")]) by (vm_compute; reflexivity).
    rewrite E. now left.
  - reflexivity.
Qed.

(** The specification's scenarios. Pids 10, 20, 30, 40 at 95, 50, 81 and 10
    percent rank as 10, 30, 20 and raise the alert; a single process at
    exactly 80.0 percent raises none. *)
Example four_processes_rank_and_alert :
  ranked defaults Scenarios.four 3 initial =
    [(95%Q, 10, "a.exe"); (81%Q, 30, "c.exe"); (50%Q, 20, "b.exe")] /\
  alert_active
    (snd (refresh_top_processes defaults Scenarios.four initial)) = true.
Proof. split; reflexivity. Qed.

Example exactly_at_threshold_is_not_an_alert :
  ranked defaults Scenarios.at_threshold 3 initial = [(80%Q, 5, "e.exe")] /\
  alert_active
    (snd (refresh_top_processes defaults Scenarios.at_threshold initial))
  = false.
Proof. split; reflexivity. Qed.

(** Neither a pass nor a refresh sends a termination request. *)
Lemma get_top_processes_requests
    (cfg : Config) (w : World) (n : Z) (s : State) :
  requests (snd (get_top_processes cfg w n s)) = requests s.
Proof.
  unfold get_top_processes, iter_processes, sleep, modify, bind.
  pose proof (for_each_keeps requests (prime w)) as K1.
  specialize (K1 (fun acc x s0 =>
    eq_trans (f_equal (fun r => requests (snd r)) (prime_run w x s0))
      match cpu_fault x as f return
        requests (match f with None => set_baseline (pid x) s0
                  | Some _ => s0 end) = requests s0
      with None => eq_refl | Some _ => eq_refl end)).
  pose proof (for_each_keeps requests (collect cfg w)) as K2.
  specialize (K2 (fun acc x s0 =>
    eq_trans (f_equal (fun r => requests (snd r)) (collect_run cfg w acc x s0))
      match survivor cfg x as f return
        requests (snd (match f with
           | Some nm => (Ok (append acc (measure w s0 (pid x), pid x, nm)),
                         set_baseline (pid x) s0)
           | None => (Ok acc, s0) end)) = requests s0
      with Some _ => eq_refl | None => eq_refl end)).
  match goal with
  | |- context [for_each (prime w) ?ps tt ?s0] =>
    specialize (K1 ps tt s0);
    destruct (for_each (prime w) ps tt s0) as [[[]|e] s1]; simpl in *; auto
  end.
  match goal with
  | |- context [for_each (collect cfg w) ?ps [] ?s0] =>
    specialize (K2 ps [] s0);
    destruct (for_each (collect cfg w) ps [] s0) as [[l|e] s2]; simpl in *;
      congruence
  end.
Qed.

Lemma refresh_top_processes_requests
    (cfg : Config) (w : World) (s : State) :
  requests (snd (refresh_top_processes cfg w s)) = requests s.
Proof.
  unfold refresh_top_processes, bind, modify.
  pose proof (get_top_processes_requests cfg w (TOP_N cfg) s) as Hg.
  destruct (get_top_processes cfg w (TOP_N cfg) s) as [[l|e] s1];
    simpl in *; auto.
  pose proof (for_each_keeps requests (add_row cfg w)) as K.
  assert (Hrow : forall acc x s0,
            requests (snd (add_row cfg w acc x s0)) = requests s0).
  { intros acc [[cpu q] nm] s0.
    unfold add_row, bind, gets, modify, ret.
    pose proof (memory_mb_state w q s0) as Hm.
    destruct (memory_mb w q s0) as [[m|e] s2]; simpl in *; now subst. }
  specialize (K Hrow l false (set_table [] s1)).
  destruct (for_each (add_row cfg w) l false (set_table [] s1))
    as [[[|]|e] s2]; simpl in *; congruence.
Qed.

(** C8. Once the user has confirmed, the termination request is sent to the
    pid, once, and the call then waits for the process, three seconds at
    most. A process that exits within the three seconds of the request gets
    the "Terminated" box. One that is still alive after them gets an error
    box with the timeout message instead, after exactly three seconds of
    waiting, and no "Terminated" box. *)
Theorem terminate_reports_exit_or_timeout
    (cfg : Config) (w : World) (p : Z) (s : State)
    (h : Handle) (nm : string) :
  psutil_Process w p = Ok h ->
  h_name h = Ok nm ->
  answers_yes w p = true ->
  h_terminate h = None ->
  WAIT_TIMEOUT = 3%Q /\
  requests (snd (terminate_process cfg w p s)) = append (requests s) p /\
  (forall d, h_exit_delay h = Some d -> (d <= WAIT_TIMEOUT)%Q ->
     exists rest,
       dialogs (snd (terminate_process cfg w p s)) =
       (dialogs s ++ [asked nm p; terminated_box p] ++ rest)%list) /\
  (h_exit_delay h = None \/
   (exists d, h_exit_delay h = Some d /\ (WAIT_TIMEOUT < d)%Q) ->
   terminate_process cfg w p s =
     (Ok tt, snd (terminate_process cfg w p s)) /\
   dialogs (snd (terminate_process cfg w p s)) =
     (dialogs s ++ [asked nm p; timeout_box])%list /\
   clock (snd (terminate_process cfg w p s)) = (clock s + WAIT_TIMEOUT)%Q).
Proof.
  intros Hproc Hname Hyes Hterm.
  split; [reflexivity|].
  unfold terminate_process, try_except, question, information,
    critical, terminate, wait, sleep, modify, gets, bind, call, ret.
  rewrite Hproc, Hname, Hyes, Hterm. simpl.
  rewrite (bool_decide_eq_true_2 (p ∈ append (requests s) p))
    by (unfold append; apply elem_of_app; right; apply list_elem_of_here).
  destruct (h_exit_delay h) as [d|] eqn:Hd.
  - destruct (Qle_bool d WAIT_TIMEOUT) eqn:Hle; simpl.
    + match goal with
      | |- context [refresh_top_processes cfg w ?s0] =>
        pose proof (refresh_top_processes_frame cfg w s0) as [Hfr _];
        pose proof (refresh_top_processes_requests cfg w s0) as Hrq;
        destruct (refresh_top_processes cfg w s0) as [[[]|e] s2]
      end; simpl in *.
      * split; [exact Hrq|]. split.
        -- intros d' [= <-] _. exists []. rewrite Hfr.
           unfold append, asked, terminated_box.
           now rewrite <- !List.app_assoc.
        -- intros [Hn|(d' & [= <-] & Hlt)]; [discriminate|].
           apply Qle_bool_iff in Hle. now apply Qlt_not_le in Hlt.
      * split; [exact Hrq|]. split.
        -- intros d' [= <-] _. exists [Critical "Error" (str_exn e)].
           rewrite Hfr. unfold append, asked, terminated_box.
           now rewrite <- !List.app_assoc.
        -- intros [Hn|(d' & [= <-] & Hlt)]; [discriminate|].
           apply Qle_bool_iff in Hle. now apply Qlt_not_le in Hlt.
    + split; [reflexivity|]. split.
      * intros d' [= <-] Hle'. apply Qle_bool_iff in Hle'. congruence.
      * intros _. unfold append, asked, timeout_box.
        rewrite <- !List.app_assoc. auto.
  - simpl. split; [reflexivity|]. split.
    + intros d' [=].
    + intros _. unfold append, asked, timeout_box.
      rewrite <- !List.app_assoc. auto.
Qed.

Lemma terminate_reports_exit_or_timeout_witness :
  (psutil_Process Scenarios.hung 7 = Ok (Scenarios.stubborn "hung.exe") /\
   h_name (Scenarios.stubborn "hung.exe") = Ok "hung.exe" /\
   answers_yes Scenarios.hung 7 = true /\
   h_terminate (Scenarios.stubborn "hung.exe") = None /\
   (WAIT_TIMEOUT = 3%Q /\
    requests (snd (terminate_process defaults Scenarios.hung 7 initial)) =
      append (requests initial) 7 /\
    (forall d, h_exit_delay (Scenarios.stubborn "hung.exe") = Some d ->
       (d <= WAIT_TIMEOUT)%Q ->
       exists rest,
         dialogs (snd (terminate_process defaults Scenarios.hung 7 initial)) =
         (dialogs initial ++
          [asked "hung.exe" 7; terminated_box 7] ++ rest)%list) /\
    (h_exit_delay (Scenarios.stubborn "hung.exe") = None \/
     (exists d, h_exit_delay (Scenarios.stubborn "hung.exe") = Some d /\
                (WAIT_TIMEOUT < d)%Q) ->
     terminate_process defaults Scenarios.hung 7 initial =
       (Ok tt, snd (terminate_process defaults Scenarios.hung 7 initial)) /\
     dialogs (snd (terminate_process defaults Scenarios.hung 7 initial)) =
       (dialogs initial ++ [asked "hung.exe" 7; timeout_box])%list /\
     clock (snd (terminate_process defaults Scenarios.hung 7 initial)) =
       (clock initial + WAIT_TIMEOUT)%Q))) /\
  (psutil_Process Scenarios.four 10 = Ok (Scenarios.obedient "a.exe") /\
   h_name (Scenarios.obedient "a.exe") = Ok "a.exe" /\
   answers_yes Scenarios.four 10 = true /\
   h_terminate (Scenarios.obedient "a.exe") = None /\
   h_exit_delay (Scenarios.obedient "a.exe") = Some (1 # 1) /\
   (1 # 1 <= WAIT_TIMEOUT)%Q /\
   (WAIT_TIMEOUT = 3%Q /\
    requests (snd (terminate_process defaults Scenarios.four 10 initial)) =
      append (requests initial) 10 /\
    (forall d, h_exit_delay (Scenarios.obedient "a.exe") = Some d ->
       (d <= WAIT_TIMEOUT)%Q ->
       exists rest,
         dialogs (snd (terminate_process defaults Scenarios.four 10 initial))
         = (dialogs initial ++
            [asked "a.exe" 10; terminated_box 10] ++ rest)%list) /\
    (h_exit_delay (Scenarios.obedient "a.exe") = None \/
     (exists d, h_exit_delay (Scenarios.obedient "a.exe") = Some d /\
                (WAIT_TIMEOUT < d)%Q) ->
     terminate_process defaults Scenarios.four 10 initial =
       (Ok tt, snd (terminate_process defaults Scenarios.four 10 initial)) /\
     dialogs (snd (terminate_process defaults Scenarios.four 10 initial)) =
       (dialogs initial ++ [asked "a.exe" 10; timeout_box])%list /\
     clock (snd (terminate_process defaults Scenarios.four 10 initial)) =
       (clock initial + WAIT_TIMEOUT)%Q))).
Proof.
  split.
  - split; [reflexivity|]. split; [reflexivity|].
    split; [reflexivity|]. split; [reflexivity|].
    exact (terminate_reports_exit_or_timeout defaults Scenarios.hung 7
             initial (Scenarios.stubborn "hung.exe") "hung.exe"
             eq_refl eq_refl eq_refl eq_refl).
  - split; [reflexivity|]. split; [reflexivity|].
    split; [reflexivity|]. split; [reflexivity|].
    split; [reflexivity|]. split; [discriminate|].
    exact (terminate_reports_exit_or_timeout defaults Scenarios.four 10
             initial (Scenarios.obedient "a.exe") "a.exe"
             eq_refl eq_refl eq_refl eq_refl).
Defined.

(** The specification's scenario: a process that exits one second after the
    request is reported terminated, one that ignores the request is reported
    as a timeout after three seconds; both were sent the request. *)
Example terminate_scenarios :
  dialogs (snd (terminate_process defaults Scenarios.four 10 initial)) =
    [asked "a.exe" 10; terminated_box 10] /\
  requests (snd (terminate_process defaults Scenarios.four 10 initial)) =
    [10] /\
  dialogs (snd (terminate_process defaults Scenarios.hung 7 initial)) =
    [asked "hung.exe" 7; timeout_box] /\
  requests (snd (terminate_process defaults Scenarios.hung 7 initial)) =
    [7] /\
  clock (snd (terminate_process defaults Scenarios.hung 7 initial)) = 3%Q.
Proof. repeat split; reflexivity. Qed.

End AlertClaims.

(** ** The rolling CPU history *)

Section History.
Import CPUGraph.

Lemma slice_from_most_recent {A} (l : list A) :
  slice_from (-60) l = most_recent 60 l.
Proof.
  unfold slice_from, most_recent. simpl. f_equal. lia.
Qed.

Lemma most_recent_length {A} (k : nat) (l : list A) :
  (length (most_recent k l) <= k)%nat.
Proof. unfold most_recent. rewrite length_skipn. lia. Qed.

Lemma most_recent_short {A} (k : nat) (l : list A) :
  (length l <= k)%nat -> most_recent k l = l.
Proof.
  intros H. unfold most_recent.
  now replace (length l - k)%nat with 0%nat by lia.
Qed.

(** A tick that reads a percentage appends it and keeps the last 60. *)
Lemma refresh_reading (t : Tick) (c : Q) (g : Graph) :
  reading t = Ok c ->
  fst (refresh t g) = Ok tt /\
  cpu_data (snd (refresh t g)) = most_recent 60 (cpu_data g ++ [c]) /\
  (length (time_data g) = length (cpu_data g) ->
   time_data (snd (refresh t g)) =
   most_recent 60 (time_data g ++ [elapsed t])).
Proof.
  intros Hr. unfold refresh, try_except, bind, call, modify, gets, ret.
  rewrite Hr. simpl.
  destruct (Z.ltb_spec 60 (Z.of_nat (length (append (cpu_data g) c))));
    simpl; unfold append in *.
  - rewrite !slice_from_most_recent. auto.
  - rewrite length_app in *. simpl in *.
    repeat split.
    + symmetry. apply most_recent_short. rewrite length_app. simpl. lia.
    + intros Hlen. symmetry. apply most_recent_short.
      rewrite length_app. simpl. lia.
Qed.

(** A tick whose read raises leaves the history as it was. *)
Lemma refresh_raise (t : Tick) (e : exn) (g : Graph) :
  reading t = Raise e ->
  cpu_data (snd (refresh t g)) = cpu_data g /\
  time_data (snd (refresh t g)) = time_data g.
Proof.
  intros Hr. unfold refresh, try_except, bind, call, modify, gets, ret.
  rewrite Hr. simpl. now destruct (gone_or_denied e).
Qed.

(** C9. The CPU history never holds more than 60 readings, and the time
    stamps run parallel to it: this holds in the fresh window and after every
    tick. A tick that reads a percentage leaves exactly the 60 most recent
    entries of the history with the new reading appended, of both lists. *)
Theorem history_never_exceeds_60 :
  (forall g, reachable g ->
     (length (cpu_data g) <= 60)%nat /\
     length (time_data g) = length (cpu_data g)) /\
  (forall g t c, reachable g -> reading t = Ok c ->
     cpu_data (snd (refresh t g)) = most_recent 60 (cpu_data g ++ [c]) /\
     time_data (snd (refresh t g)) =
       most_recent 60 (time_data g ++ [elapsed t])).
Proof.
  assert (Hinv : forall g, reachable g ->
     (length (cpu_data g) <= 60)%nat /\
     length (time_data g) = length (cpu_data g)).
  { induction 1 as [|g t Hg [IHlen IHpar]]; [simpl; split; [lia|reflexivity]|].
    destruct (reading t) as [c|e] eqn:Hr.
    - destruct (refresh_reading t c g Hr) as (_ & Hcpu & Htime).
      rewrite Hcpu, (Htime IHpar). split.
      + apply most_recent_length.
      + unfold most_recent. rewrite !length_skipn, !length_app. simpl. lia.
    - destruct (refresh_raise t e g Hr) as [-> ->]. auto. }
  split; [exact Hinv|].
  intros g t c Hg Hr.
  destruct (refresh_reading t c g Hr) as (_ & Hcpu & Htime).
  split; [exact Hcpu|]. apply Htime. now apply Hinv.
Qed.

Lemma history_never_exceeds_60_witness :
  reachable (snd (refresh {| reading := Ok 10%Q; elapsed := 1%Q |} init)) /\
  (length (cpu_data
     (snd (refresh {| reading := Ok 10%Q; elapsed := 1%Q |} init)))
   <= 60)%nat /\
  length (time_data
    (snd (refresh {| reading := Ok 10%Q; elapsed := 1%Q |} init))) =
  length (cpu_data
    (snd (refresh {| reading := Ok 10%Q; elapsed := 1%Q |} init))).
Proof.
  assert (H : reachable
    (snd (refresh {| reading := Ok 10%Q; elapsed := 1%Q |} init)))
    by (apply reach_refresh, reach_init).
  split; [exact H|].
  exact (proj1 history_never_exceeds_60 _ H).
Defined.

(** Sixty-one ticks at 10 percent leave sixty readings. *)
Example sixty_one_ticks_leave_sixty :
  length (cpu_data
    (fold_left (fun g t => snd (refresh t g))
       (repeat {| reading := Ok 10%Q; elapsed := 1%Q |} 61) init)) = 60%nat.
Proof. reflexivity. Qed.

End History.

(** ** The single-process report *)

Section Report.
Import IdsMonitor.

Lemma add_files_run (files acc : list string) :
  exists L, for_each add_file files acc tt = (Ok (acc ++ L)%list, tt).
Proof.
  revert acc. induction files as [|f files IH]; intros acc.
  - exists []. simpl. now rewrite app_nil_r.
  - change (for_each add_file (f :: files) acc tt)
      with (for_each add_file files
              (append acc ("<b>File Accessed:</b> " ++ f)) tt).
    destruct (IH (append acc ("<b>File Accessed:</b> " ++ f))) as [L ->].
    exists (("<b>File Accessed:</b> " ++ f) :: L).
    unfold append. now rewrite <- List.app_assoc.
Qed.

Lemma add_children_run (kids : list (result string)) (acc : list string) :
  match first_some (map failure kids) with
  | Some e => for_each add_child kids acc tt = (Raise e, tt)
  | None => exists L, for_each add_child kids acc tt = (Ok (acc ++ L)%list, tt)
  end.
Proof.
  revert acc. induction kids as [|[nm|e] kids IH]; intros acc.
  - exists []. simpl. now rewrite app_nil_r.
  - specialize (IH (append acc ("<b>Child Process Executed:</b> " ++ nm))).
    change (first_some (map failure (Ok nm :: kids)))
      with (first_some (map failure kids)).
    change (for_each add_child (Ok nm :: kids) acc tt)
      with (for_each add_child kids
              (append acc ("<b>Child Process Executed:</b> " ++ nm)) tt).
    destruct (first_some (map failure kids)); [exact IH|].
    destruct IH as [L ->].
    exists (("<b>Child Process Executed:</b> " ++ nm) :: L).
    unfold append. now rewrite <- List.app_assoc.
  - reflexivity.
Qed.

(** The [try] block raises the first exception its calls meet, and otherwise
    returns the four headline entries followed by files and children. *)
Lemma report_cases (w : World) (p : Z) :
  match first_failure w p with
  | Some e => report w p tt = (Raise e, tt)
  | None => exists l, report w p tt = (Ok l, tt) /\ (4 <= length l)%nat
  end.
Proof.
  unfold first_failure, report, bind, call.
  destruct (w p) as [process|e]; [|reflexivity].
  destruct (name process) as [nm|e]; [|reflexivity].
  destruct (status process) as [st|e]; [|reflexivity].
  destruct (cpu_percent process) as [cpu|e]; [|reflexivity].
  destruct (rss process) as [r|e]; [|reflexivity].
  destruct (open_files process) as [files|e]; [|reflexivity].
  simpl.
  match goal with
  | |- context [for_each add_file files ?acc tt] =>
    destruct (add_files_run files acc) as [L ->];
    set (info := (acc ++ L)%list)
  end.
  destruct (children process) as [kids|e]; [|reflexivity].
  pose proof (add_children_run kids info) as Hk.
  destruct (first_some (map failure kids)); [exact Hk|]. subst info.
  destruct Hk as [L' ->]. eexists. split; [reflexivity|].
  unfold append. rewrite !length_app. simpl. lia.
Qed.

(** What the call returns, by the first exception its reads meet. *)
Lemma monitor_process_activity_cases (w : World) (p : Z) :
  match first_failure w p with
  | Some (NoSuchProcess _) =>
    monitor_process_activity w p = Ok [not_found]
  | Some (AccessDenied _) =>
    monitor_process_activity w p = Ok [denied]
  | Some e =>
    monitor_process_activity w p = Ok ["<b>Error:</b> " ++ str_exn e]
  | None =>
    exists l, monitor_process_activity w p = Ok l /\ (4 <= length l)%nat
  end.
Proof.
  unfold monitor_process_activity, try_except.
  pose proof (report_cases w p) as H.
  destruct (first_failure w p) as [e|].
  - rewrite H. now destruct e.
  - destruct H as (l & -> & Hl). eauto.
Qed.

(** C7. A pid that cannot be found and a pid that may not be read give two
    different results, each a list with the one line that names the error and
    no detail line; any other exception gives the one line with its text. No
    exception reaches the caller. *)
Theorem detail_errors_are_distinct_results (w : World) (p : Z) :
  match first_failure w p with
  | Some (NoSuchProcess _) =>
    monitor_process_activity w p = Ok [not_found]
  | Some (AccessDenied _) =>
    monitor_process_activity w p = Ok [denied]
  | Some e =>
    monitor_process_activity w p = Ok ["<b>Error:</b> " ++ str_exn e]
  | None =>
    exists l, monitor_process_activity w p = Ok l /\ (4 <= length l)%nat
  end /\
  not_found <> denied /\
  exists l, monitor_process_activity w p = Ok l.
Proof.
  pose proof (monitor_process_activity_cases w p) as H.
  split; [exact H|]. split; [discriminate|].
  destruct (first_failure w p) as [[]|]; eauto.
  destruct H as (l & H & _). eauto.
Qed.

(** C10. For every pid the call returns a list, and the list is not empty:
    the report of at least four lines, or the one line of an error. *)
Theorem detail_report_total_nonempty (w : World) (p : Z) :
  exists l, monitor_process_activity w p = Ok l /\ l <> [].
Proof.
  pose proof (monitor_process_activity_cases w p) as H.
  destruct (first_failure w p) as [[]|];
    try (eexists; split; [exact H | discriminate]).
  destruct H as (l & H & Hl). exists l. split; [exact H|].
  intros ->. simpl in Hl. lia.
Qed.

(** A vanished pid, an unreadable pid, and a process whose child vanishes
    while its name is read. *)
Example detail_error_results :
  monitor_process_activity
    (fun _ => Raise (NoSuchProcess "process no longer exists")) 1 =
    Ok ["<b>Error:</b> Process not found."] /\
  monitor_process_activity
    (fun _ => Raise (AccessDenied "access denied")) 1 =
    Ok ["<b>Error:</b> Access denied to the process."] /\
  monitor_process_activity
    (fun _ => Ok {| name := Ok "a.exe"; status := Ok "running";
                    cpu_percent := Ok 80%Q; rss := Ok 1048576;
                    open_files := Ok ["a.log"];
                    children := Ok [Ok "b.exe"] |}) 1 =
    Ok ["<b>Process Name:</b> a.exe"; "<b>Process Status:</b> running";
        "<b>CPU Usage:</b> 80.00%"; "<b>Memory Usage:</b> 1.00 MB";
        "<b>File Accessed:</b> a.log";
        "<b>Child Process Executed:</b> b.exe"].
Proof. repeat split; reflexivity. Qed.

End Report.

(** * Further properties *)

(** ** A pass, as a function of the state it starts in *)

Section PassFunction.
Import PidMonitor.
Variable cfg : Config.
Variable w : World.

Lemma prime_loop_eq (ps : list Process) (s : State) :
  for_each (prime w) ps tt s = (Ok tt, primed_state ps s).
Proof.
  revert s. induction ps as [|p ps IH]; intros s; [reflexivity|].
  simpl. unfold bind at 1. rewrite prime_run. apply IH.
Qed.

Lemma collect_loop_eq (ps : list Process) (acc : list sample) (s : State) :
  for_each (collect cfg w) ps acc s =
  (Ok (acc ++ fst (collected cfg w ps s))%list, snd (collected cfg w ps s)).
Proof.
  revert acc s. induction ps as [|p ps IH]; intros acc s; simpl.
  - unfold ret. now rewrite app_nil_r.
  - unfold bind at 1. rewrite collect_run.
    destruct (survivor cfg p) as [nm|]; [|apply IH].
    rewrite IH.
    destruct (collected cfg w ps (set_baseline (pid p) s)) as [L s'].
    simpl. unfold append. now rewrite <- List.app_assoc.
Qed.

(** A pass is the sorted, truncated list the collecting loop builds from the
    second enumeration, started once the first one is primed and the settle
    time has passed. *)
Lemma get_top_processes_eq (n : Z) (s : State) :
  get_top_processes cfg w n s =
  (Ok (slice_to n (sort_reverse
         (fst (collected cfg w (process_iter w (S (scans s)))
                 (settled_state w s))))),
   snd (collected cfg w (process_iter w (S (scans s))) (settled_state w s))).
Proof.
  unfold get_top_processes, iter_processes, sleep, modify.
  unfold bind at 1. unfold bind at 1. rewrite prime_loop_eq.
  unfold bind at 1. unfold bind at 1. unfold bind at 1.
  rewrite collect_loop_eq. simpl.
  assert (Hscans : forall ps s0, scans (primed_state ps s0) = scans s0).
  { induction ps as [|p ps IH]; intros s0; simpl; auto.
    rewrite IH. now destruct (cpu_fault p). }
  rewrite Hscans. reflexivity.
Qed.

Lemma primed_state_frame (ps : list Process) (s : State) :
  clock (primed_state ps s) = clock s /\
  scans (primed_state ps s) = scans s /\
  window (primed_state ps s) = window s.
Proof.
  revert s. induction ps as [|p ps IH]; intros s; simpl; auto.
  destruct (IH (match cpu_fault p with
                | None => set_baseline (pid p) s
                | Some _ => s
                end)) as (-> & -> & ->).
  now destruct (cpu_fault p).
Qed.

(** Priming leaves the baseline of a pid it could not read as it was. *)
Lemma primed_state_other (ps : list Process) (s : State) (q : Z) :
  (forall p, In p ps -> pid p = q -> cpu_fault p <> None) ->
  last_cpu (primed_state ps s) !! q = last_cpu s !! q.
Proof.
  revert s. induction ps as [|p ps IH]; intros s Hq; simpl; auto.
  rewrite IH by (intros p' Hin; apply Hq; now right).
  destruct (cpu_fault p) eqn:Hf; auto. simpl.
  apply lookup_insert_ne. intros Heq.
  apply (Hq p (or_introl eq_refl) Heq Hf).
Qed.

Lemma collected_frame (ps : list Process) (s : State) :
  clock (snd (collected cfg w ps s)) = clock s /\
  scans (snd (collected cfg w ps s)) = scans s /\
  window (snd (collected cfg w ps s)) = window s.
Proof.
  revert s. induction ps as [|p ps IH]; intros s; simpl; auto.
  destruct (survivor cfg p); [|apply IH].
  specialize (IH (set_baseline (pid p) s)).
  destruct (collected cfg w ps (set_baseline (pid p) s)) as [L s']. exact IH.
Qed.

(** The loop appends one tuple per kept process, in enumeration order. *)
Lemma collected_kept (ps : list Process) (s : State) :
  map (fun t => (pid_of t, Some (name_of t))) (fst (collected cfg w ps s)) =
  map (fun p => (pid p, survivor cfg p)) (kept cfg ps).
Proof.
  revert s. induction ps as [|p ps IH]; intros s; simpl; auto.
  unfold kept. simpl. destruct (survivor cfg p) as [nm|] eqn:Hp.
  - specialize (IH (set_baseline (pid p) s)).
    destruct (collected cfg w ps (set_baseline (pid p) s)) as [L s'].
    simpl in *. rewrite Hp. f_equal. exact IH.
  - apply IH.
Qed.

(** Every kept process leaves the loop with the loop's instant as baseline;
    the baselines of all other pids are as before. *)
Lemma collected_baseline (ps : list Process) (s : State) (q : Z) :
  last_cpu (snd (collected cfg w ps s)) !! q =
  if bool_decide (q ∈ map pid (kept cfg ps))
  then Some (clock s) else last_cpu s !! q.
Proof.
  revert s. induction ps as [|p ps IH]; intros s; simpl.
  - reflexivity.
  - destruct (survivor cfg p) as [nm|] eqn:Hp.
    + specialize (IH (set_baseline (pid p) s)).
      destruct (collected cfg w ps (set_baseline (pid p) s)) as [L s'].
      simpl in *. rewrite IH.
      destruct (decide (pid p = q)) as [->|Hne].
      * rewrite (bool_decide_eq_true_2 (q ∈ q :: _)) by apply list_elem_of_here.
        case_bool_decide; auto. apply lookup_insert_eq.
      * rewrite lookup_insert_ne by auto.
        repeat case_bool_decide; auto.
        -- exfalso. match goal with H : ~ _ |- _ => apply H end.
           now apply list_elem_of_further.
        -- exfalso. match goal with H : _ ∈ _ :: _ |- _ =>
             apply elem_of_cons in H as [Heq|Hin] end; auto.
    + apply IH.
Qed.

End PassFunction.

(** ** What a pass returns and what it leaves *)

Section PassExtras.
Import PidMonitor.

Lemma StronglySorted_app_inv {A} (R : A -> A -> Prop) (l1 l2 : list A) :
  StronglySorted R (l1 ++ l2) ->
  forall a b, In a l1 -> In b l2 -> R a b.
Proof.
  induction l1 as [|x l1 IH]; simpl; intros Hs a b Ha Hb; [easy|].
  apply StronglySorted_inv in Hs as [Hs Hx].
  destruct Ha as [<-|Ha]; [|now apply IH].
  apply (proj1 (List.Forall_forall _ _) Hx). apply in_or_app. now right.
Qed.

Lemma collected_length (cfg : Config) (w : World)
    (ps : list Process) (s : State) :
  length (fst (collected cfg w ps s)) = length (kept cfg ps).
Proof.
  rewrite <- (length_map (fun t => (pid_of t, Some (name_of t)))).
  rewrite collected_kept. apply length_map.
Qed.

Lemma collected_pids (cfg : Config) (w : World)
    (ps : list Process) (s : State) :
  map pid_of (fst (collected cfg w ps s)) = map pid (kept cfg ps).
Proof.
  pose proof (f_equal (map fst) (collected_kept cfg w ps s)) as H.
  now rewrite !map_map in H.
Qed.

Lemma kept_pids_sublist (cfg : Config) (ps : list Process) :
  sublist (map pid (kept cfg ps)) (map pid ps).
Proof.
  induction ps as [|p ps IH]; simpl; [constructor|].
  unfold kept. simpl. destruct (survivor cfg p); simpl.
  - now apply sublist_skip.
  - now apply sublist_cons.
Qed.

Lemma kept_survivor (cfg : Config) (ps : list Process) (p : Process) :
  In p (kept cfg ps) <-> In p ps /\ survivor cfg p <> None.
Proof.
  unfold kept. rewrite filter_In.
  destruct (survivor cfg p); intuition congruence.
Qed.

(** With distinct pids, every collected tuple carries the reading its process
    had in the state the loop started in. *)
Lemma collected_values (cfg : Config) (w : World)
    (ps : list Process) (s : State) :
  NoDup (map pid ps) ->
  forall t, In t (fst (collected cfg w ps s)) ->
    cpu_of t = measure w s (pid_of t).
Proof.
  intros Hnd t Ht.
  destruct (collect_loop cfg w ps [] s)
    as (L & s' & Hrun & _ & _ & _ & _ & _ & Hval & _).
  rewrite collect_loop_eq in Hrun. injection Hrun as HL _.
  simpl in HL. rewrite <- HL in Hval. now apply Hval.
Qed.

(** X1. For a non-negative [n], a pass returns the [n] highest samples of
    the list its collecting loop builds, or all of them when there are fewer:
    that list is the returned one together with a rest, the returned list
    has [min n k] samples for [k] collected ones, and no returned sample
    ranks behind a sample of the rest. *)
Theorem returned_samples_outrank_the_rest
    (cfg : Config) (w : World) (n : Z) (s : State) :
  0 <= n ->
  exists proc_list l rest s',
    for_each (collect cfg w) (process_iter w (S (scans s))) []
      (settled_state w s) = (Ok proc_list, s') /\
    get_top_processes cfg w n s = (Ok l, s') /\
    Permutation proc_list (l ++ rest) /\
    Z.of_nat (length l) = Z.min n (Z.of_nat (length proc_list)) /\
    forall a b, In a l -> In b rest -> ranks_before a b.
Proof.
  intros Hn. rewrite get_top_processes_eq, collect_loop_eq. simpl.
  set (ps := process_iter w (S (scans s))).
  set (L := fst (collected cfg w ps (settled_state w s))).
  exists L, (slice_to n (sort_reverse L)),
         (skipn (Z.to_nat n) (sort_reverse L)),
         (snd (collected cfg w ps (settled_state w s))).
  assert (E : (slice_to n (sort_reverse L) ++
               skipn (Z.to_nat n) (sort_reverse L))%list = sort_reverse L).
  { unfold slice_to. destruct (Z.ltb_spec n 0); [lia|].
    apply firstn_skipn. }
  split; [reflexivity|]. split; [reflexivity|]. split; [|split].
  - rewrite E. apply sort_reverse_perm.
  - unfold slice_to. destruct (Z.ltb_spec n 0); [lia|].
    rewrite length_firstn, sort_reverse_length. lia.
  - apply StronglySorted_app_inv. rewrite E.
    apply StronglySorted_weaken with (R := fun a b => tuple_lt a b = false).
    + apply not_lt_ranks_before.
    + apply sort_reverse_sorted.
Qed.

Lemma returned_samples_outrank_the_rest_witness :
  0 <= 3 /\
  exists proc_list l rest s',
    for_each (collect defaults Scenarios.four)
      (process_iter Scenarios.four (S (scans initial))) []
      (settled_state Scenarios.four initial) = (Ok proc_list, s') /\
    get_top_processes defaults Scenarios.four 3 initial = (Ok l, s') /\
    Permutation proc_list (l ++ rest) /\
    Z.of_nat (length l) = Z.min 3 (Z.of_nat (length proc_list)) /\
    forall a b, In a l -> In b rest -> ranks_before a b.
Proof.
  split; [lia|].
  apply (returned_samples_outrank_the_rest defaults Scenarios.four 3 initial).
  lia.
Defined.

(** In [Scenarios.four] the loop collects four samples; the three highest
    are returned and the one at 10 percent is the rest. *)
Example three_of_four_returned :
  fst (for_each (collect defaults Scenarios.four)
         (process_iter Scenarios.four (S (scans initial))) []
         (settled_state Scenarios.four initial)) =
    Ok [(95%Q, 10, "a.exe"); (50%Q, 20, "b.exe"); (81%Q, 30, "c.exe");
        (10%Q, 40, "d.exe")] /\
  ranked defaults Scenarios.four 3 initial =
    [(95%Q, 10, "a.exe"); (81%Q, 30, "c.exe"); (50%Q, 20, "b.exe")].
Proof. split; vm_compute; reflexivity. Qed.

(** X2. How many samples a pass returns: with [k] processes kept, [min n k]
    for a non-negative [n]; a negative [n] does not return an empty list but
    drops the [-n] lowest samples, leaving [max 0 (k + n)]. *)
Theorem returned_count
    (cfg : Config) (w : World) (n : Z) (s : State) :
  exists l s',
    get_top_processes cfg w n s = (Ok l, s') /\
    Z.of_nat (length l) =
    let k := Z.of_nat (length (kept cfg (process_iter w (S (scans s))))) in
    if n <? 0 then Z.max 0 (k + n) else Z.min n k.
Proof.
  rewrite get_top_processes_eq. eexists _, _. split; [reflexivity|].
  unfold slice_to. rewrite <- (collected_length cfg w _ (settled_state w s)).
  rewrite <- (sort_reverse_length (fst _)).
  destruct (Z.ltb_spec n 0); rewrite length_firstn; lia.
Qed.

(** X3. When the second enumeration yields every pid once, no pid occurs
    twice in the returned list. *)
Theorem returned_pids_are_distinct
    (cfg : Config) (w : World) (n : Z) (s : State) :
  NoDup (map pid (process_iter w (S (scans s)))) ->
  exists l s',
    get_top_processes cfg w n s = (Ok l, s') /\ NoDup (map pid_of l).
Proof.
  intros Hnd. rewrite get_top_processes_eq. eexists _, _.
  split; [reflexivity|].
  set (L := fst (collected cfg w _ (settled_state w s))).
  destruct (slice_to_firstn n (sort_reverse L)) as [k ->].
  rewrite <- firstn_map.
  eapply sublist_NoDup; [|apply sublist_take].
  rewrite <- (Permutation_map pid_of (sort_reverse_perm L)).
  subst L. rewrite collected_pids.
  eapply sublist_NoDup; [exact Hnd | apply kept_pids_sublist].
Qed.

Lemma returned_pids_are_distinct_witness :
  NoDup (map pid (process_iter Scenarios.faulty (S (scans initial)))) /\
  exists l s',
    get_top_processes defaults Scenarios.faulty 3 initial = (Ok l, s') /\
    NoDup (map pid_of l).
Proof.
  assert (Hnd : NoDup (map pid
                         (process_iter Scenarios.faulty (S (scans initial))))).
  { apply NoDup_ListNoDup. simpl.
    repeat (constructor; [simpl; intuition discriminate|]). constructor. }
  split; [exact Hnd|].
  exact (returned_pids_are_distinct defaults Scenarios.faulty 3 initial Hnd).
Defined.

End PassExtras.

Section PassState.
Import PidMonitor.

Lemma settled_state_frame (w : World) (s : State) :
  clock (settled_state w s) = (clock s + SETTLE)%Q /\
  scans (settled_state w s) = S (S (scans s)) /\
  window (settled_state w s) = window s.
Proof.
  unfold settled_state.
  destruct (primed_state_frame (process_iter w (scans s))
              (next_scan (process_iter w (scans s)) s))
    as (Hc & Hn & Hw).
  repeat split; simpl.
  - now rewrite Hc.
  - now rewrite Hn.
  - unfold window in *. simpl in *. exact Hw.
Qed.

Lemma collected_from (cfg : Config) (w : World)
    (ps : list Process) (s : State) (t : sample) :
  In t (fst (collected cfg w ps s)) -> In (pid_of t) (map pid ps).
Proof.
  intros Ht. apply (in_map pid_of) in Ht. rewrite collected_pids in Ht.
  apply in_map_iff in Ht as (p & <- & Hp).
  apply in_map. now apply kept_survivor in Hp.
Qed.

(** X4. A process the pass did not prime is still reported. If the first
    enumeration did not yield its pid (it started during the sleep), it is
    reported as 0.0, whatever earlier passes measured for that pid: psutil
    has dropped its cached object. If the first enumeration yielded it but
    the priming read raised, it is reported against the baseline an earlier
    pass left, however old, or as 0.0 when there is none. *)
Theorem unprimed_process_reading
    (cfg : Config) (w : World) (n : Z) (s : State) :
  NoDup (map pid (process_iter w (S (scans s)))) ->
  exists l s',
    get_top_processes cfg w n s = (Ok l, s') /\
    (forall t, In t l ->
       (forall q, In q (process_iter w (scans s)) -> pid q <> pid_of t) ->
       cpu_of t = 0%Q) /\
    (forall t, In t l ->
       (exists q, In q (process_iter w (scans s)) /\ pid q = pid_of t) ->
       (forall q, In q (process_iter w (scans s)) ->
                  pid q = pid_of t -> cpu_fault q <> None) ->
       cpu_of t =
       match last_cpu s !! pid_of t with
       | Some t0 => usage w (pid_of t) t0 (clock s + SETTLE)%Q
       | None => 0%Q
       end).
Proof.
  intros Hnd. rewrite get_top_processes_eq. eexists _, _.
  split; [reflexivity|].
  assert (Hread : forall t,
    In t (slice_to n (sort_reverse
            (fst (collected cfg w (process_iter w (S (scans s)))
                    (settled_state w s))))) ->
    (forall q, In q (process_iter w (scans s)) ->
               pid q = pid_of t -> cpu_fault q <> None) ->
    cpu_of t =
    match (if bool_decide (pid_of t ∈ map pid (process_iter w (scans s)))
           then last_cpu s !! pid_of t else None) with
    | Some t0 => usage w (pid_of t) t0 (clock s + SETTLE)%Q
    | None => 0%Q
    end).
  { intros t Ht Hun. apply in_slice_to in Ht.
    apply (proj1 (in_sort_reverse _ _)) in Ht.
    rewrite (collected_values cfg w _ _ Hnd t Ht).
    unfold measure.
    destruct (settled_state_frame w s) as (-> & _ & _).
    unfold settled_state. simpl.
    rewrite still_listed_lookup, bool_decide_eq_true_2
      by (apply list_elem_of_In; eapply collected_from; exact Ht).
    rewrite (primed_state_other _ _ _ Hun). simpl.
    now rewrite still_listed_lookup. }
  split.
  - intros t Ht Habsent. rewrite (Hread t Ht).
    + rewrite bool_decide_eq_false_2; [reflexivity|].
      intros Hin. apply list_elem_of_In, in_map_iff in Hin as (q & Hq & Hin).
      now apply (Habsent q Hin).
    + intros q Hin Hq. now destruct (Habsent q Hin).
  - intros t Ht (q & Hin & Hq) Hun. rewrite (Hread t Ht Hun).
    rewrite bool_decide_eq_true_2; [reflexivity|].
    apply list_elem_of_In. rewrite <- Hq. now apply in_map.
Qed.

Lemma unprimed_process_reading_witness :
  (NoDup (map pid (process_iter Scenarios.late_start (S (scans initial)))) /\
   exists l s',
     get_top_processes defaults Scenarios.late_start 3 initial = (Ok l, s') /\
     (forall t, In t l ->
        (forall q, In q (process_iter Scenarios.late_start (scans initial)) ->
                   pid q <> pid_of t) ->
        cpu_of t = 0%Q) /\
     (forall t, In t l ->
        (exists q, In q (process_iter Scenarios.late_start (scans initial)) /\
                   pid q = pid_of t) ->
        (forall q, In q (process_iter Scenarios.late_start (scans initial)) ->
                   pid q = pid_of t -> cpu_fault q <> None) ->
        cpu_of t =
        match last_cpu initial !! pid_of t with
        | Some t0 =>
          usage Scenarios.late_start (pid_of t) t0 (clock initial + SETTLE)%Q
        | None => 0%Q
        end)) /\
  (NoDup (map pid (process_iter Scenarios.flaky (S (scans Scenarios.later))))
   /\
   exists l s',
     get_top_processes defaults Scenarios.flaky 3 Scenarios.later
       = (Ok l, s') /\
     (forall t, In t l ->
        (forall q, In q (process_iter Scenarios.flaky (scans Scenarios.later))
                   -> pid q <> pid_of t) ->
        cpu_of t = 0%Q) /\
     (forall t, In t l ->
        (exists q,
           In q (process_iter Scenarios.flaky (scans Scenarios.later)) /\
           pid q = pid_of t) ->
        (forall q, In q (process_iter Scenarios.flaky (scans Scenarios.later))
                   -> pid q = pid_of t -> cpu_fault q <> None) ->
        cpu_of t =
        match last_cpu Scenarios.later !! pid_of t with
        | Some t0 =>
          usage Scenarios.flaky (pid_of t) t0
            (clock Scenarios.later + SETTLE)%Q
        | None => 0%Q
        end)).
Proof.
  assert (H1 : NoDup (map pid (process_iter Scenarios.late_start
                                 (S (scans initial))))).
  { apply NoDup_ListNoDup. simpl.
    repeat (constructor; [simpl; intuition discriminate|]). constructor. }
  assert (H2 : NoDup (map pid (process_iter Scenarios.flaky
                                 (S (scans Scenarios.later))))).
  { apply NoDup_ListNoDup. simpl.
    repeat (constructor; [simpl; intuition discriminate|]). constructor. }
  split.
  - split; [exact H1|].
    exact (unprimed_process_reading defaults Scenarios.late_start 3 initial
             H1).
  - split; [exact H2|].
    exact (unprimed_process_reading defaults Scenarios.flaky 3
             Scenarios.later H2).
Defined.

(** The two cases at work. The process that starts during the sleep is
    reported as 0.0. The process of [flaky], primed and read by a first pass
    and unreadable when the second pass primes five seconds later, is
    reported by the second pass with its usage since the first pass, an
    interval of more than a second. *)
Example unprimed_readings :
  ranked defaults Scenarios.late_start 3 initial = [(0%Q, 42, "new.exe")] /\
  ranked defaults Scenarios.flaky 3 initial = [(50%Q, 9, "f.exe")] /\
  ranked defaults Scenarios.flaky 3 Scenarios.later = [(77%Q, 9, "f.exe")].
Proof. repeat split; vm_compute; reflexivity. Qed.

(** X5. What a pass does to the state: it shows nothing (table, tray icon,
    tooltip and message boxes are as before), makes exactly two
    enumerations, takes the settle time, and leaves every process the
    collecting loop kept, returned or cut off by [n], with the instant of
    its second read as baseline for the next pass. *)
Theorem pass_effects (cfg : Config) (w : World) (n : Z) (s : State) :
  exists l s',
    get_top_processes cfg w n s = (Ok l, s') /\
    window s' = window s /\
    scans s' = S (S (scans s)) /\
    clock s' = (clock s + SETTLE)%Q /\
    forall p, In p (process_iter w (S (scans s))) ->
      survivor cfg p <> None ->
      last_cpu s' !! pid p = Some (clock s + SETTLE)%Q.
Proof.
  rewrite get_top_processes_eq. eexists _, _. split; [reflexivity|].
  destruct (collected_frame cfg w (process_iter w (S (scans s)))
              (settled_state w s)) as (Hc & Hn & Hw).
  destruct (settled_state_frame w s) as (Hc' & Hn' & Hw').
  repeat split; try congruence.
  intros p Hin Hs. rewrite collected_baseline, Hc'.
  rewrite bool_decide_eq_true_2; auto.
  apply list_elem_of_In, in_map, kept_survivor. auto.
Qed.

End PassState.

(** ** The table a refresh builds *)

Section Table.
Import PidMonitor.
Variable cfg : Config.
Variable w : World.

Lemma memory_mb_eq (p : Z) (s : State) :
  memory_mb w p s =
  (match memory_fault w p with
   | Some e => Raise e
   | None => Ok (shown_memory w p)
   end, s).
Proof.
  unfold memory_mb, memory_fault, shown_memory, try_except, bind, call, ret.
  destruct (psutil_Process w p) as [h|e].
  - destruct (h_rss h) as [r|e]; auto. now destruct (gone_or_denied e).
  - now destruct (gone_or_denied e).
Qed.


Lemma caught_no_fault (p : Z) :
  memory_faults_caught w -> memory_fault w p = None.
Proof.
  intros H. specialize (H p). unfold memory_fault.
  destruct (psutil_Process w p) as [h|e].
  - destruct (h_rss h) as [r|e]; auto. now rewrite H.
  - now rewrite H.
Qed.

Lemma add_row_eq (acc : bool) (t : sample) (s : State) :
  add_row cfg w acc t s =
  match memory_fault w (pid_of t) with
  | Some e => (Raise e, s)
  | None =>
    (Ok (Qgtb (cpu_of t) (inject_Z (CPU_ALERT_THRESHOLD cfg)) || acc),
     set_table (append (table s) (row_of cfg w t)) s)
  end.
Proof.
  destruct t as [[cpu p] nm]. unfold add_row, bind at 1.
  rewrite memory_mb_eq. unfold pid_of, cpu_of. simpl.
  destruct (memory_fault w p); auto.
Qed.


(** The table loop appends the rows of the samples in order, up to the first
    memory read that lets an exception escape; it touches nothing but the
    table. *)
Lemma add_rows_outcome (l : list sample) (acc : bool) (s : State) :
  fst (for_each (add_row cfg w) l acc s) =
    match first_memory_fault w l with
    | None =>
      Ok (acc || existsb (fun t =>
            Qgtb (cpu_of t) (inject_Z (CPU_ALERT_THRESHOLD cfg))) l)
    | Some (_, e) => Raise e
    end /\
  table (snd (for_each (add_row cfg w) l acc s)) =
    (table s ++ map (row_of cfg w)
       match first_memory_fault w l with
       | None => l
       | Some (l1, _) => l1
       end)%list /\
  tray_icon (snd (for_each (add_row cfg w) l acc s)) = tray_icon s /\
  tray_tooltip (snd (for_each (add_row cfg w) l acc s)) = tray_tooltip s.
Proof.
  revert acc s. induction l as [|t l IH]; intros acc s; simpl.
  - rewrite orb_false_r, app_nil_r. auto.
  - unfold bind. rewrite add_row_eq.
    destruct (memory_fault w (pid_of t)) as [e|]; simpl.
    + rewrite app_nil_r. auto.
    + destruct (IH (Qgtb (cpu_of t) (inject_Z (CPU_ALERT_THRESHOLD cfg))
                    || acc)
                   (set_table (append (table s) (row_of cfg w t)) s))
        as (Hr & Ht & Hi & Hp).
      rewrite Hr, Ht, Hi, Hp. simpl. unfold append.
      destruct (first_memory_fault w l) as [[l1 e]|]; simpl;
        rewrite <- List.app_assoc; repeat split; auto.
      now destruct (Qgtb _ _), acc.
Qed.

End Table.

Section TableExtras.
Import PidMonitor.

(** A refresh is a pass, an empty table, the table loop, and then the tray
    icon if the loop came to its end. *)
Lemma refresh_top_processes_eq (cfg : Config) (w : World) (s : State) :
  forall l s1, get_top_processes cfg w (TOP_N cfg) s = (Ok l, s1) ->
  refresh_top_processes cfg w s =
  match for_each (add_row cfg w) l false (set_table [] s1) with
  | (Ok found, s2) =>
    (Ok tt,
     if found
     then set_tray AlertIcon "Process Monitoring IDS - ALERT" s2
     else set_tray DefaultIcon "Process Monitoring IDS" s2)
  | (Raise e, s2) => (Raise e, s2)
  end.
Proof.
  intros l s1 Hrun. unfold refresh_top_processes, bind at 1. rewrite Hrun.
  unfold bind at 1, modify at 1. unfold bind at 1.
  destruct (for_each (add_row cfg w) l false (set_table [] s1))
    as [[found|e] s2]; auto.
  now destruct found.
Qed.

Lemma row_alert_iff (cfg : Config) (w : World) (l : list sample) :
  existsb (fun t => Qgtb (cpu_of t) (inject_Z (CPU_ALERT_THRESHOLD cfg))) l
    = true <->
  exists r, In r (map (row_of cfg w) l) /\ item_alert r = "ALERT!".
Proof.
  rewrite existsb_exists. split.
  - intros (t & Hin & Ht). exists (row_of cfg w t). split.
    + now apply in_map.
    + simpl. now rewrite Ht.
  - intros (r & Hin & Hr). apply in_map_iff in Hin as (t & <- & Hin).
    exists t. split; auto. simpl in Hr.
    destruct (Qgtb _ _); [reflexivity | discriminate].
Qed.

Lemma caught_no_first_fault (w : World) (l : list sample) :
  memory_faults_caught w -> first_memory_fault w l = None.
Proof.
  intros caught. induction l as [|t l IH]; simpl; auto.
  now rewrite caught_no_fault, IH.
Qed.

(** X6. When the memory reads raise nothing but what the loop catches, a
    refresh replaces the table, whatever it held, by one row per returned
    sample, in ranking order; with a non-negative [TOP_N] the table never has
    more than [TOP_N] rows. *)
Theorem refresh_rebuilds_the_table
    (cfg : Config) (w : World) (s : State) :
  memory_faults_caught w ->
  exists l s1 s',
    get_top_processes cfg w (TOP_N cfg) s = (Ok l, s1) /\
    refresh_top_processes cfg w s = (Ok tt, s') /\
    table s' = map (row_of cfg w) l /\
    (0 <= TOP_N cfg -> Z.of_nat (length (table s')) <= TOP_N cfg).
Proof.
  intros caught.
  pose proof (get_top_processes_eq cfg w (TOP_N cfg) s) as Hrun.
  set (L := fst (collected cfg w _ _)) in Hrun.
  set (l := slice_to (TOP_N cfg) (sort_reverse L)) in *.
  set (s1 := snd (collected cfg w _ _)) in Hrun.
  pose proof (refresh_top_processes_eq cfg w s l s1 Hrun) as Href.
  destruct (add_rows_outcome cfg w l false (set_table [] s1))
    as (Hr & Ht & _).
  pose proof (caught_no_first_fault w l caught) as Hnone.
  rewrite Hnone in Hr, Ht.
  destruct (for_each (add_row cfg w) l false (set_table [] s1))
    as [[found|e] s2]; simpl in Hr, Ht; [|discriminate].
  eexists l, s1, _. split; [exact Hrun|]. split; [exact Href|].
  assert (Htable : table (if found
      then set_tray AlertIcon "Process Monitoring IDS - ALERT" s2
      else set_tray DefaultIcon "Process Monitoring IDS" s2)
    = map (row_of cfg w) l) by (destruct found; exact Ht).
  split; [exact Htable|].
  intros Hn. rewrite Htable, length_map. now apply slice_to_length.
Qed.

Lemma refresh_rebuilds_the_table_witness :
  memory_faults_caught Scenarios.four /\
  exists l s1 s',
    get_top_processes defaults Scenarios.four (TOP_N defaults) initial
      = (Ok l, s1) /\
    refresh_top_processes defaults Scenarios.four initial = (Ok tt, s') /\
    table s' = map (row_of defaults Scenarios.four) l /\
    (0 <= TOP_N defaults ->
     Z.of_nat (length (table s')) <= TOP_N defaults).
Proof.
  assert (H : memory_faults_caught Scenarios.four) by (intros p; exact I).
  split; [exact H|].
  exact (refresh_rebuilds_the_table defaults Scenarios.four initial H).
Defined.

(** X7. After a refresh that completes, the tray and the table agree: the
    tray shows the alert icon exactly when some row of the table says
    "ALERT!", and the tooltip is the one that goes with the icon. *)
Theorem tray_alert_iff_some_row_alerts
    (cfg : Config) (w : World) (s : State) :
  memory_faults_caught w ->
  exists s',
    refresh_top_processes cfg w s = (Ok tt, s') /\
    (alert_active s' = true <->
     exists r, In r (table s') /\ item_alert r = "ALERT!") /\
    tray_tooltip s' =
      if alert_active s' then "Process Monitoring IDS - ALERT"
      else "Process Monitoring IDS".
Proof.
  intros caught.
  pose proof (get_top_processes_eq cfg w (TOP_N cfg) s) as Hrun.
  set (L := fst (collected cfg w _ _)) in Hrun.
  set (l := slice_to (TOP_N cfg) (sort_reverse L)) in *.
  set (s1 := snd (collected cfg w _ _)) in Hrun.
  rewrite (refresh_top_processes_eq cfg w s l s1 Hrun).
  destruct (add_rows_outcome cfg w l false (set_table [] s1))
    as (Hr & Ht & _).
  pose proof (caught_no_first_fault w l caught) as Hnone.
  rewrite Hnone in Hr, Ht.
  destruct (for_each (add_row cfg w) l false (set_table [] s1))
    as [[found|e] s2]; simpl in Hr, Ht; [|discriminate].
  injection Hr as Hr. simpl in Hr.
  pose proof (row_alert_iff cfg w l) as Hrows. rewrite <- Hr, <- Ht in Hrows.
  eexists. split; [reflexivity|].
  destruct found; simpl; (split; [|reflexivity]); split; intros H;
    try reflexivity; try discriminate; now apply Hrows.
Qed.

Lemma tray_alert_iff_some_row_alerts_witness :
  memory_faults_caught Scenarios.four /\
  exists s',
    refresh_top_processes defaults Scenarios.four initial = (Ok tt, s') /\
    (alert_active s' = true <->
     exists r, In r (table s') /\ item_alert r = "ALERT!") /\
    tray_tooltip s' =
      if alert_active s' then "Process Monitoring IDS - ALERT"
      else "Process Monitoring IDS".
Proof.
  assert (H : memory_faults_caught Scenarios.four) by (intros p; exact I).
  split; [exact H|].
  exact (tray_alert_iff_some_row_alerts defaults Scenarios.four initial H).
Defined.



End TableExtras.

(** ** Termination requests that do not reach the wait *)

Section TerminateExtras.
Import PidMonitor.

(** X9. [terminate_process] never raises. When the pid cannot be opened or
    its name cannot be read, the only thing that happens is one error box
    with the exception's text: nothing is asked and nothing is refreshed.
    When the user confirms and the termination request itself raises, the
    error box follows the question, without any wait or refresh. *)
Theorem terminate_failures_show_one_error_box
    (cfg : Config) (w : World) (p : Z) (s : State) :
  fst (terminate_process cfg w p s) = Ok tt /\
  (forall e, psutil_Process w p = Raise e ->
     snd (terminate_process cfg w p s) =
     show_dialog (Critical "Error" (str_exn e)) s) /\
  (forall h e, psutil_Process w p = Ok h -> h_name h = Raise e ->
     snd (terminate_process cfg w p s) =
     show_dialog (Critical "Error" (str_exn e)) s) /\
  (forall h nm e, psutil_Process w p = Ok h -> h_name h = Ok nm ->
     answers_yes w p = true -> h_terminate h = Some e ->
     snd (terminate_process cfg w p s) =
     show_dialog (Critical "Error" (str_exn e))
       (show_dialog (asked nm p) s)).
Proof.
  split; [|split; [|split]].
  - unfold terminate_process, try_except, any_exception, critical, modify.
    match goal with
    | |- context [let (_, _) := ?body s in _] => destruct (body s) as [[[]|e] s']
    | |- fst (match ?body with _ => _ end) = _ => destruct body as [[[]|e] s']
    end; reflexivity.
  - intros e He.
    unfold terminate_process, try_except, bind, call. now rewrite He.
  - intros h e Hh He.
    unfold terminate_process, try_except, bind, call. now rewrite Hh, He.
  - intros h nm e Hh Hnm Hyes He.
    unfold terminate_process, try_except, bind, call, question, terminate,
      modify, ret.
    now rewrite Hh, Hnm, Hyes, He.
Qed.

(** X10. When the user answers No, nothing is waited for and no
    "Terminated" box is shown, but the table is refreshed all the same: the
    call takes the settle time of one pass, and the question is followed by
    nothing, or by the error box of a refresh that raised. *)
Theorem declined_termination_only_refreshes
    (cfg : Config) (w : World) (p : Z) (s : State)
    (h : Handle) (nm : string) :
  psutil_Process w p = Ok h ->
  h_name h = Ok nm ->
  answers_yes w p = false ->
  clock (snd (terminate_process cfg w p s)) = (clock s + SETTLE)%Q /\
  table (snd (terminate_process cfg w p s)) =
    table (snd (refresh_top_processes cfg w (show_dialog (asked nm p) s))) /\
  exists rest,
    dialogs (snd (terminate_process cfg w p s)) =
      (dialogs s ++ asked nm p :: rest)%list /\
    (rest = [] \/ exists e, rest = [Critical "Error" (str_exn e)]).
Proof.
  intros Hh Hnm Hno.
  unfold terminate_process, try_except, bind, call, question, modify, ret.
  rewrite Hh, Hnm, Hno. unfold asked. simpl.
  match goal with
  | |- context [refresh_top_processes cfg w ?s0] =>
    destruct (refresh_top_processes_frame cfg w s0) as [Hd Hc];
    destruct (refresh_top_processes cfg w s0) as [[[]|e] s']
  end; simpl in *.
  - split; [exact Hc|]. split; [reflexivity|].
    exists []. split; [|now left].
    rewrite Hd. reflexivity.
  - split; [exact Hc|]. split; [reflexivity|].
    exists [Critical "Error" (str_exn e)]. split; [|right; eauto].
    rewrite Hd. unfold append. simpl. now rewrite <- List.app_assoc.
Qed.

Lemma declined_termination_only_refreshes_witness :
  psutil_Process Scenarios.declined 10 = Ok (Scenarios.obedient "a.exe") /\
  h_name (Scenarios.obedient "a.exe") = Ok "a.exe" /\
  answers_yes Scenarios.declined 10 = false /\
  (clock (snd (terminate_process defaults Scenarios.declined 10 initial)) =
     (clock initial + SETTLE)%Q /\
   table (snd (terminate_process defaults Scenarios.declined 10 initial)) =
     table (snd (refresh_top_processes defaults Scenarios.declined
                   (show_dialog (asked "a.exe" 10) initial))) /\
   exists rest,
     dialogs (snd (terminate_process defaults Scenarios.declined 10 initial))
       = (dialogs initial ++ asked "a.exe" 10 :: rest)%list /\
     (rest = [] \/ exists e, rest = [Critical "Error" (str_exn e)])).
Proof.
  split; [reflexivity|]. split; [reflexivity|]. split; [reflexivity|].
  exact (declined_termination_only_refreshes defaults Scenarios.declined 10
           initial (Scenarios.obedient "a.exe") "a.exe"
           eq_refl eq_refl eq_refl).
Defined.

End TerminateExtras.

(** ** The history as a sliding window *)

Section HistoryExtras.
Import CPUGraph.

Lemma most_recent_step {A} (k : nat) (l : list A) (x : A) :
  (0 < k)%nat ->
  most_recent k (most_recent k l ++ [x]) = most_recent k (l ++ [x]).
Proof.
  intros Hk. unfold most_recent.
  rewrite !length_app, length_skipn. simpl.
  destruct (Nat.le_gt_cases (length l) k) as [Hle|Hgt].
  - replace (length l - k)%nat with 0%nat by lia. simpl.
    now replace (length l - 0)%nat with (length l) by lia.
  - replace (length l - (length l - k) + 1 - k)%nat with 1%nat by lia.
    replace (length l + 1 - k)%nat with (S (length l - k)) by lia.
    rewrite (skipn_app (S (length l - k)) l).
    rewrite (skipn_app 1 (skipn (length l - k) l)).
    rewrite length_skipn.
    replace (1 - (length l - (length l - k)))%nat with 0%nat by lia.
    replace (S (length l - k) - length l)%nat with 0%nat by lia.
    simpl. f_equal.
    rewrite <- (Nat.add_1_l (length l - k)), <- skipn_skipn. reflexivity.
Qed.

Lemma run_app (ticks : list Tick) (t : Tick) (g : Graph) :
  run (ticks ++ [t]) g = snd (refresh t (run ticks g)).
Proof. unfold run. now rewrite fold_left_app. Qed.

Lemma run_reachable (ticks : list Tick) : reachable (run ticks init).
Proof.
  induction ticks as [|t ticks IH] using rev_ind.
  - apply reach_init.
  - rewrite run_app. now apply reach_refresh.
Qed.

Lemma reachable_parallel (g : Graph) :
  reachable g ->
  (length (cpu_data g) <= 60)%nat /\
  length (time_data g) = length (cpu_data g).
Proof.
  induction 1 as [|g t Hg [IHlen IHpar]]; [simpl; split; [lia|reflexivity]|].
  destruct (reading t) as [c|e] eqn:Hr.
  - destruct (refresh_reading t c g Hr) as (_ & Hcpu & Htime).
    rewrite Hcpu, (Htime IHpar). split.
    + apply most_recent_length.
    + unfold most_recent. rewrite !length_skipn, !length_app. simpl. lia.
  - destruct (refresh_raise t e g Hr) as [-> ->]. auto.
Qed.

(** X11. From a fresh window, after any series of ticks the history is the
    last 60 of the percentages read so far, and the time stamps are the last
    60 of their times: ticks whose read raised leave no entry, and only the
    oldest entries are ever dropped. *)
Theorem history_is_the_last_60_readings (ticks : list Tick) :
  cpu_data (run ticks init) = most_recent 60 (readings ticks) /\
  time_data (run ticks init) = most_recent 60 (reading_times ticks).
Proof.
  induction ticks as [|t ticks [IHc IHt]] using rev_ind; [split; reflexivity|].
  rewrite run_app. unfold readings, reading_times.
  rewrite !flat_map_app. simpl. rewrite !app_nil_r.
  fold (readings ticks) (reading_times ticks).
  destruct (reading t) as [c|e] eqn:Hr.
  - destruct (refresh_reading t c (run ticks init) Hr) as (_ & Hcpu & Htime).
    rewrite Hcpu, Htime by apply reachable_parallel, run_reachable.
    rewrite IHc, IHt. split; apply most_recent_step; lia.
  - destruct (refresh_raise t e (run ticks init) Hr) as [-> ->].
    now rewrite !app_nil_r.
Qed.

(** X12. A full history moves on by one: when 60 readings are held, a tick
    that reads drops the oldest percentage and the oldest time stamp and
    appends the new ones; below 60 it only appends. *)
Theorem full_history_drops_its_oldest_entry
    (g : Graph) (t : Tick) (c : Q) :
  reachable g ->
  reading t = Ok c ->
  ((length (cpu_data g) < 60)%nat ->
   cpu_data (snd (refresh t g)) = (cpu_data g ++ [c])%list /\
   time_data (snd (refresh t g)) = (time_data g ++ [elapsed t])%list) /\
  (length (cpu_data g) = 60%nat ->
   cpu_data (snd (refresh t g)) = (tl (cpu_data g) ++ [c])%list /\
   time_data (snd (refresh t g)) = (tl (time_data g) ++ [elapsed t])%list).
Proof.
  intros Hg Hr.
  destruct (reachable_parallel g Hg) as [Hlen Hpar].
  destruct (refresh_reading t c g Hr) as (_ & Hcpu & Htime).
  rewrite Hcpu, (Htime Hpar). unfold most_recent. rewrite !length_app. simpl.
  split; intros H.
  - replace (length (cpu_data g) + 1 - 60)%nat with 0%nat by lia.
    replace (length (time_data g) + 1 - 60)%nat with 0%nat by lia.
    auto.
  - replace (length (cpu_data g) + 1 - 60)%nat with 1%nat by lia.
    replace (length (time_data g) + 1 - 60)%nat with 1%nat by lia.
    destruct (cpu_data g) as [|x xs]; [discriminate|].
    destruct (time_data g) as [|y ys]; [discriminate|].
    auto.
Qed.

Lemma full_history_drops_its_oldest_entry_witness :
  reachable Scenarios.full_graph /\
  reading {| reading := Ok 10%Q; elapsed := 61%Q |} = Ok 10%Q /\
  length (cpu_data Scenarios.full_graph) = 60%nat /\
  (((length (cpu_data Scenarios.full_graph) < 60)%nat ->
    cpu_data (snd (refresh {| reading := Ok 10%Q; elapsed := 61%Q |}
                     Scenarios.full_graph))
      = (cpu_data Scenarios.full_graph ++ [10%Q])%list /\
    time_data (snd (refresh {| reading := Ok 10%Q; elapsed := 61%Q |}
                      Scenarios.full_graph))
      = (time_data Scenarios.full_graph ++ [61%Q])%list) /\
   (length (cpu_data Scenarios.full_graph) = 60%nat ->
    cpu_data (snd (refresh {| reading := Ok 10%Q; elapsed := 61%Q |}
                     Scenarios.full_graph))
      = (tl (cpu_data Scenarios.full_graph) ++ [10%Q])%list /\
    time_data (snd (refresh {| reading := Ok 10%Q; elapsed := 61%Q |}
                      Scenarios.full_graph))
      = (tl (time_data Scenarios.full_graph) ++ [61%Q])%list)).
Proof.
  assert (H : reachable Scenarios.full_graph) by apply run_reachable.
  split; [exact H|]. split; [reflexivity|]. split; [reflexivity|].
  exact (full_history_drops_its_oldest_entry Scenarios.full_graph
           {| reading := Ok 10%Q; elapsed := 61%Q |} 10%Q H eq_refl).
Defined.


(** X14. The two series handed to the plot always have the same length, in
    every graph a window can hold; after a tick that reads they are the
    time stamps and the history the tick leaves. *)
Theorem plot_series_run_parallel :
  (forall g, reachable g ->
     length (fst (plotted g)) = length (snd (plotted g))) /\
  (forall g t c, reading t = Ok c ->
     plotted (snd (refresh t g)) =
     (time_data (snd (refresh t g)), cpu_data (snd (refresh t g)))).
Proof.
  assert (Hplot : forall g t c, reading t = Ok c ->
     plotted (snd (refresh t g)) =
     (time_data (snd (refresh t g)), cpu_data (snd (refresh t g)))).
  { intros g t c Hr.
    unfold refresh, try_except, bind, call, modify, gets, ret.
    rewrite Hr. simpl. now destruct (60 <? _). }
  split; [|exact Hplot].
  intros g Hg. induction Hg as [|g t Hg IH]; [reflexivity|].
  destruct (reading t) as [c|e] eqn:Hr.
  - rewrite (Hplot g t c Hr). simpl.
    now destruct (reachable_parallel _ (reach_refresh g t Hg)).
  - unfold refresh, try_except, bind, call, modify.
    rewrite Hr. now destruct (gone_or_denied e).
Qed.

End HistoryExtras.

(** ** The lines of a report *)

Section ReportExtras.
Import IdsMonitor.

Lemma add_files_eq (files acc : list string) :
  for_each add_file files acc tt = (Ok (acc ++ map file_line files)%list, tt).
Proof.
  revert acc. induction files as [|f files IH]; intros acc.
  - simpl. unfold ret. now rewrite app_nil_r.
  - change (for_each add_file (f :: files) acc tt)
      with (for_each add_file files (append acc (file_line f)) tt).
    rewrite IH. unfold append. simpl. now rewrite <- List.app_assoc.
Qed.

Lemma add_children_eq (kids acc : list string) :
  for_each add_child (map Ok kids) acc tt =
  (Ok (acc ++ map child_line kids)%list, tt).
Proof.
  revert acc. induction kids as [|k kids IH]; intros acc.
  - simpl. unfold ret. now rewrite app_nil_r.
  - change (for_each add_child (map Ok (k :: kids)) acc tt)
      with (for_each add_child (map Ok kids) (append acc (child_line k)) tt).
    rewrite IH. unfold append. simpl. now rewrite <- List.app_assoc.
Qed.

(** X15. For a process all of whose reads return, the report is: the name,
    the status, the CPU line, the memory in MiB, then one line per open file
    and one line per descendant, each in the order psutil lists them. The
    CPU line is the red ALERT line when the percentage is strictly above 80,
    and the plain line at 80.0 and below. *)
Theorem report_lines_in_order
    (w : World) (p : Z) (nm st : string) (cpu : Q) (r : Z)
    (files kids : list string) :
  w p = Ok (healthy nm st cpu r files kids) ->
  monitor_process_activity w p =
    Ok ([name_line nm; status_line st; cpu_line cpu; memory_line r] ++
        map file_line files ++ map child_line kids)%list /\
  ((80 < cpu)%Q -> cpu_line cpu = alert_line cpu) /\
  ((cpu <= 80)%Q -> cpu_line cpu = plain_line cpu).
Proof.
  intros Hp. split; [|split].
  - unfold monitor_process_activity, try_except, report, bind, call.
    rewrite Hp. simpl. rewrite add_files_eq, add_children_eq.
    unfold append. simpl. reflexivity.
  - intros H. unfold cpu_line, Qgtb.
    apply Qgt_alt in H. now rewrite H.
  - intros H. unfold cpu_line, Qgtb.
    apply (proj1 (Qle_alt _ _)) in H.
    destruct (Qcompare cpu 80); auto. now contradiction H.
Qed.

Lemma report_lines_in_order_witness :
  (fun _ : Z => Ok (healthy "a.exe" "running" 80 1048576 ["a.log"] ["b.exe"]))
    1 = Ok (healthy "a.exe" "running" 80 1048576 ["a.log"] ["b.exe"]) /\
  (monitor_process_activity
     (fun _ => Ok (healthy "a.exe" "running" 80 1048576 ["a.log"] ["b.exe"]))
     1 =
     Ok ([name_line "a.exe"; status_line "running"; cpu_line 80;
          memory_line 1048576] ++
         map file_line ["a.log"] ++ map child_line ["b.exe"])%list /\
   ((80 < 80)%Q -> cpu_line 80 = alert_line 80) /\
   ((80 <= 80)%Q -> cpu_line 80 = plain_line 80)).
Proof.
  split; [reflexivity|].
  exact (report_lines_in_order
           (fun _ => Ok (healthy "a.exe" "running" 80 1048576
                           ["a.log"] ["b.exe"]))
           1 "a.exe" "running" 80 1048576 ["a.log"] ["b.exe"] eq_refl).
Defined.

End ReportExtras.

(** ** The window around the monitor *)

Section WindowExtras.
Import PidMonitor AppWindow.

(** [int] reads back what [str] wrote. *)
Lemma int_text_str_int (p : Z) : int_text (str_int p) = Ok p.
Proof.
  unfold int_text, str_int.
  assert (E : NilEmpty.string_of_int (Z.to_int p) =
              NilZero.string_of_int (Z.to_int p)).
  { destruct p as [|q|q]; simpl; auto;
      pose proof (Unsigned.to_uint_nonnil q) as Hq;
      now destruct (Pos.to_uint q). }
  rewrite E, NilZero.isi.
  - now rewrite DecimalZ.of_to.
  - destruct p as [|q|q]; simpl; try discriminate.
    intros [= H]. now apply (Unsigned.to_uint_nonnil q).
  - destruct p as [|q|q]; simpl; try discriminate.
    intros [= H]. now apply (Unsigned.to_uint_nonnil q).
Qed.

(** A refresh that meets only memory faults it catches completes, with the
    rows of the ranked list in the table and the icon that goes with
    them. *)
Lemma refresh_completes (cfg : Config) (w : World) (s : State) :
  memory_faults_caught w ->
  exists s',
    refresh_top_processes cfg w s = (Ok tt, s') /\
    table s' = map (row_of cfg w) (ranked cfg w (TOP_N cfg) s) /\
    tray_icon s' =
      if existsb (fun t =>
           Qgtb (cpu_of t) (inject_Z (CPU_ALERT_THRESHOLD cfg)))
           (ranked cfg w (TOP_N cfg) s)
      then AlertIcon else DefaultIcon.
Proof.
  intros caught.
  pose proof (get_top_processes_eq cfg w (TOP_N cfg) s) as Hrun.
  rewrite (ranked_run cfg w _ s _ _ Hrun).
  set (L := fst (collected cfg w _ _)) in *.
  set (l := slice_to (TOP_N cfg) (sort_reverse L)) in *.
  set (s1 := snd (collected cfg w _ _)) in Hrun.
  rewrite (refresh_top_processes_eq cfg w s l s1 Hrun).
  destruct (add_rows_outcome cfg w l false (set_table [] s1))
    as (Hr & Ht & _).
  rewrite (caught_no_first_fault w l caught) in Hr, Ht.
  destruct (for_each (add_row cfg w) l false (set_table [] s1))
    as [[found|e] s2]; simpl in Hr, Ht; [|discriminate].
  injection Hr as <-. eexists. split; [reflexivity|].
  now destruct found.
Qed.

Lemma after_drag_app (evs : list drag_event) (ev : drag_event) (a : App) :
  after_drag (evs ++ [ev]) a = snd (drag ev (after_drag evs a)).
Proof. unfold after_drag. now rewrite fold_left_app. Qed.

Lemma drag_keeps (ev : drag_event) (a : App) :
  monitor (snd (drag ev a)) = monitor a /\
  visible (snd (drag ev a)) = visible a /\
  tray_messages (snd (drag ev a)) = tray_messages a.
Proof.
  destruct ev; unfold drag, moveEvent, resizeEvent, _pause_updates, bind,
    gets, modify, ret; now destruct (is_active (timer a)).
Qed.

(** X16. While the window is dragged or resized the table is not refreshed,
    and afterwards it is again: after any series of move and resize events
    the refresh timer is stopped and the drag timer is set to one second,
    whatever the timers were before; when the drag timer fires, the refresh
    timer runs again at 5000 ms. The events change nothing else. *)
Theorem updates_pause_during_drag_and_resume
    (a : App) (evs : list drag_event) :
  evs <> [] ->
  is_active (timer (after_drag evs a)) = false /\
  drag_resize_timer (after_drag evs a) =
    {| is_active := true; interval := 1000 |} /\
  monitor (after_drag evs a) = monitor a /\
  visible (after_drag evs a) = visible a /\
  timer (snd (drag_resize_timeout (after_drag evs a))) =
    {| is_active := true; interval := 5000 |} /\
  is_active (drag_resize_timer (snd (drag_resize_timeout (after_drag evs a))))
    = false.
Proof.
  intros Hevs.
  assert (Hkeep : forall evs, monitor (after_drag evs a) = monitor a /\
                              visible (after_drag evs a) = visible a).
  { induction evs0 as [|ev evs0 [IHm IHv]] using rev_ind; [auto|].
    rewrite after_drag_app.
    destruct (drag_keeps ev (after_drag evs0 a)) as (-> & -> & _). auto. }
  destruct (Hkeep evs) as [Hm Hv].
  destruct evs as [|ev evs _] using rev_ind; [contradiction|].
  rewrite after_drag_app in *.
  set (b := after_drag evs a) in *.
  assert (Hlast : is_active (timer (snd (drag ev b))) = false /\
                  drag_resize_timer (snd (drag ev b)) =
                    {| is_active := true; interval := 1000 |}).
  { destruct ev; unfold drag, moveEvent, resizeEvent, _pause_updates, bind,
      gets, modify, ret; now destruct (is_active (timer b)) eqn:Hb. }
  destruct Hlast as [Ht Hd].
  repeat split; auto;
    unfold drag_resize_timeout, _resume_updates, bind, gets, modify, ret;
    simpl; rewrite Ht; reflexivity.
Qed.

Lemma updates_pause_during_drag_and_resume_witness :
  [Move; Resize; Move] <> [] /\
  is_active (timer (after_drag [Move; Resize; Move] created)) = false /\
  drag_resize_timer (after_drag [Move; Resize; Move] created) =
    {| is_active := true; interval := 1000 |} /\
  monitor (after_drag [Move; Resize; Move] created) = monitor created /\
  visible (after_drag [Move; Resize; Move] created) = visible created /\
  timer (snd (drag_resize_timeout
                (after_drag [Move; Resize; Move] created))) =
    {| is_active := true; interval := 5000 |} /\
  is_active (drag_resize_timer
               (snd (drag_resize_timeout
                       (after_drag [Move; Resize; Move] created)))) = false.
Proof.
  assert (H : [Move; Resize; Move] <> []) by discriminate.
  split; [exact H|].
  exact (updates_pause_during_drag_and_resume created [Move; Resize; Move] H).
Defined.

(** X17. Minimising the window after a refresh hides it, and shows the tray
    message "minimized (ALERT active)" exactly when the refresh found a
    sample above the threshold: the message follows the icon the last
    completed refresh left, not the load at the time of minimising. *)
Theorem minimise_notifies_iff_last_refresh_alerted
    (cfg : Config) (w : World) (a : App) :
  memory_faults_caught w ->
  exists a1,
    timer_timeout cfg w a = (Ok tt, a1) /\
    visible (snd (minimise a1)) = Hidden /\
    ((exists t, In t (ranked cfg w (TOP_N cfg) (monitor a)) /\
                above_threshold cfg t) ->
     tray_messages (snd (minimise a1)) =
     append (tray_messages a)
       ("Minimized", "Process Monitoring IDS is minimized (ALERT active).")) /\
    ((forall t, In t (ranked cfg w (TOP_N cfg) (monitor a)) ->
                ~ above_threshold cfg t) ->
     tray_messages (snd (minimise a1)) = tray_messages a).
Proof.
  intros caught.
  destruct (refresh_completes cfg w (monitor a) caught)
    as (s' & Href & _ & Hicon).
  exists (with_monitor s' a).
  split; [unfold timer_timeout, lift; now rewrite Href|].
  set (l := ranked cfg w (TOP_N cfg) (monitor a)) in *.
  unfold minimise, changeEvent, bind, gets, modify, ret. simpl.
  rewrite Hicon.
  destruct (existsb _ l) eqn:Hex; simpl.
  - split; [reflexivity|]. split; [reflexivity|].
    intros Hnone. apply existsb_exists in Hex as (t & Hin & Ht).
    apply Qgtb_above in Ht. now destruct (Hnone t Hin).
  - split; [reflexivity|]. split; [|reflexivity].
    intros (t & Hin & Ht). apply Qgtb_above in Ht.
    assert (Hex' : existsb (fun t =>
        Qgtb (cpu_of t) (inject_Z (CPU_ALERT_THRESHOLD cfg))) l = true)
      by (apply existsb_exists; eauto).
    congruence.
Qed.

Lemma minimise_notifies_iff_last_refresh_alerted_witness :
  memory_faults_caught Scenarios.four /\
  exists a1,
    timer_timeout defaults Scenarios.four created = (Ok tt, a1) /\
    visible (snd (minimise a1)) = Hidden /\
    ((exists t,
        In t (ranked defaults Scenarios.four (TOP_N defaults)
                (monitor created)) /\
        above_threshold defaults t) ->
     tray_messages (snd (minimise a1)) =
     append (tray_messages created)
       ("Minimized", "Process Monitoring IDS is minimized (ALERT active).")) /\
    ((forall t,
        In t (ranked defaults Scenarios.four (TOP_N defaults)
                (monitor created)) ->
        ~ above_threshold defaults t) ->
     tray_messages (snd (minimise a1)) = tray_messages created).
Proof.
  assert (H : memory_faults_caught Scenarios.four) by (intros p; exact I).
  split; [exact H|].
  exact (minimise_notifies_iff_last_refresh_alerted
           defaults Scenarios.four created H).
Defined.

(** X18. After a refresh, a double click on a row opens the graph of the
    process that row shows: the pid read back from the row's first cell is
    the pid of the sample ranked at that position. A row the table does not
    have opens nothing. *)
Theorem graph_opens_for_the_pid_of_the_row
    (cfg : Config) (w : World) (a : App) :
  memory_faults_caught w ->
  exists a1,
    timer_timeout cfg w a = (Ok tt, a1) /\
    (forall i t,
       nth_error (ranked cfg w (TOP_N cfg) (monitor a)) i = Some t ->
       show_graph (Z.of_nat i) a1 =
       (Ok (Some (pid_of t)), with_graph_win (pid_of t) a1)) /\
    (forall row,
       row < 0 \/
       Z.of_nat (length (ranked cfg w (TOP_N cfg) (monitor a))) <= row ->
       show_graph row a1 = (Ok None, a1)).
Proof.
  intros caught.
  destruct (refresh_completes cfg w (monitor a) caught)
    as (s' & Href & Htable & _).
  exists (with_monitor s' a).
  split; [unfold timer_timeout, lift; now rewrite Href|].
  set (l := ranked cfg w (TOP_N cfg) (monitor a)) in *.
  split.
  - intros i t Hi.
    unfold show_graph, bind, gets, item_0, call, modify, ret. simpl.
    destruct (Z.ltb_spec (Z.of_nat i) 0); [lia|].
    rewrite Htable, Nat2Z.id, nth_error_map, Hi. simpl.
    now rewrite int_text_str_int.
  - intros row Hrow.
    unfold show_graph, bind, gets, item_0, ret. simpl.
    destruct (Z.ltb_spec row 0); [reflexivity|].
    destruct Hrow as [Hrow|Hrow]; [lia|].
    rewrite Htable.
    rewrite (proj2 (nth_error_None _ _)); [reflexivity|].
    rewrite length_map. lia.
Qed.

Lemma graph_opens_for_the_pid_of_the_row_witness :
  memory_faults_caught Scenarios.four /\
  exists a1,
    timer_timeout defaults Scenarios.four created = (Ok tt, a1) /\
    (forall i t,
       nth_error (ranked defaults Scenarios.four (TOP_N defaults)
                    (monitor created)) i = Some t ->
       show_graph (Z.of_nat i) a1 =
       (Ok (Some (pid_of t)), with_graph_win (pid_of t) a1)) /\
    (forall row,
       row < 0 \/
       Z.of_nat (length (ranked defaults Scenarios.four (TOP_N defaults)
                           (monitor created))) <= row ->
       show_graph row a1 = (Ok None, a1)).
Proof.
  assert (H : memory_faults_caught Scenarios.four) by (intros p; exact I).
  split; [exact H|].
  exact (graph_opens_for_the_pid_of_the_row
           defaults Scenarios.four created H).
Defined.

End WindowExtras.

(** ** The text area of the detail window *)

Section TextArea.
Import IdsMonitor IdsWindow.

Lemma append_all (process_info text : list string) :
  for_each (fun (_ : unit) info => modify (fun text => append text info))
    process_info tt text = (Ok tt, (text ++ process_info)%list).
Proof.
  revert text. induction process_info as [|info l IH]; intros text; simpl.
  - unfold ret. now rewrite app_nil_r.
  - unfold bind, modify at 1. rewrite IH. unfold append.
    now rewrite <- List.app_assoc.
Qed.

(** X19. Whatever the text area showed, after a report has reached it the
    area holds the lines of that report and nothing else, and it is never
    left empty: a failed read shows its one error line. *)
Theorem text_area_shows_the_latest_report
    (w : World) (p : Z) (text : list string) :
  exists l,
    monitor_process_activity w p = Ok l /\
    show_report w p text = (Ok tt, l) /\
    l <> [].
Proof.
  assert (H : exists l, monitor_process_activity w p = Ok l /\ l <> []).
  { pose proof (monitor_process_activity_cases w p) as H.
    destruct (first_failure w p) as [[]|];
      try (eexists; split; [exact H | discriminate]).
    destruct H as (l & H & Hl). exists l. split; [exact H|].
    intros ->. simpl in Hl. lia. }
  destruct H as (l & Hl & Hne). exists l. split; [exact Hl|]. split; auto.
  unfold show_report, bind at 1, call. rewrite Hl.
  unfold update_gui, bind, modify at 1. apply append_all.
Qed.

End TextArea.
